(** * Element memory, progress computation and geometric validation

    A shallow embedding of three services of [mss-ai/app/services]:

    - [element_memory_service.py]: [ElementLifecycle], [ElementStatus] and
      [ElementMemoryService] over the [ProjectElementMemory] table;
    - [progress_calculator.py]: [ProgressCalculator];
    - [geometric_validator.py]: [GeometricValidator].

    Conventions.  Python [int] is [Z].  Python [str] is [string] (a string of
    bytes); [str.lower] is modelled on the ASCII letters, which covers every
    literal the services compare against.  A [dict] whose keys may be absent
    is a record of [option] fields, and [d.get(k, default)] is [default] on
    [None].  A [dict] that is iterated is an association list in insertion
    order.  The DynamoDB table is a finite map from the hash key [memory_id]
    to the stored item.  Python [float] results are modelled by exact
    rationals ([Q]).  A Python exception is a value of [Outcome]. *)

From stdpp Require Import gmap strings list fin_maps sorting.
From Stdlib Require Import ZArith QArith Qminmax Qround Lia Lqa.

Local Open Scope string_scope.
Local Open Scope Z_scope.

(** ** Strings *)

Module Str.

(** [c.lower()] for one character: the letters [A]..[Z] move to [a]..[z]. *)
Definition lower_ascii (c : Ascii.ascii) : Ascii.ascii :=
  let n := Ascii.nat_of_ascii c in
  if (Nat.leb 65 n && Nat.leb n 90)%bool
  then Ascii.ascii_of_nat (n + 32) else c.

(** [s.lower()]. *)
Fixpoint lower (s : string) : string :=
  match s with
  | EmptyString => EmptyString
  | String c s' => String (lower_ascii c) (lower s')
  end.

(** [sep.join(l)]. *)
Fixpoint join (sep : string) (l : list string) : string :=
  match l with
  | [] => ""
  | [x] => x
  | x :: l' => x ++ sep ++ join sep l'
  end.

(** [x in l] for a list or a set literal of strings. *)
Definition mem (x : string) (l : list string) : bool :=
  bool_decide (x ∈ l).

End Str.

(** ** Insertion-ordered dictionaries *)

Module Dict.

Section dict.
Context {V : Type}.

(** [k in d]. *)
Definition contains (k : string) (d : list (string * V)) : bool :=
  bool_decide (k ∈ d.*1).

(** [d.get(k)]. *)
Fixpoint get (k : string) (d : list (string * V)) : option V :=
  match d with
  | [] => None
  | (k', v) :: d' => if decide (k' = k) then Some v else get k d'
  end.

(** [d[k] = v]: an existing key keeps its position, a new key goes last. *)
Fixpoint set (k : string) (v : V) (d : list (string * V)) : list (string * V) :=
  match d with
  | [] => [(k, v)]
  | (k', v') :: d' =>
      if decide (k' = k) then (k, v) :: d' else (k', v') :: set k v d'
  end.

(** [d.keys()]. *)
Definition keys (d : list (string * V)) : list string := d.*1.
End dict.

End Dict.

(** ** Lifecycle classification *)

Inductive Lifecycle : Set := PERMANENT | TEMPORARY | FINISHING | UNKNOWN.

Global Instance Lifecycle_eq_dec : EqDecision Lifecycle.
Proof. solve_decision. Defined.

Module ElementLifecycle.

(** The string each constant of the class stands for. *)
Definition value (l : Lifecycle) : string :=
  match l with
  | PERMANENT => "permanent"
  | TEMPORARY => "temporary"
  | FINISHING => "finishing"
  | UNKNOWN => "unknown"
  end.

Definition permanent_types : list string :=
  ["column"; "beam"; "slab"; "foundation"; "roof";
   "wall"; "structure"; "footing"; "pile"].

Definition temporary_types : list string :=
  ["scaffold"; "formwork"; "equipment"; "fence";
   "barrier"; "support"; "temporary"].

Definition finishing_types : list string :=
  ["door"; "window"; "covering"; "railing";
   "stair"; "curtainwall"; "panel"; "floor"].

Definition classify (element_type : string) : Lifecycle :=
  let element_type_lower := Str.lower element_type in
  if Str.mem element_type_lower permanent_types then PERMANENT
  else if Str.mem element_type_lower temporary_types then TEMPORARY
  else if Str.mem element_type_lower finishing_types then FINISHING
  else UNKNOWN.

End ElementLifecycle.

(** ** Element status *)

Inductive ElementStatus : Set := VISIBLE | HIDDEN | REMOVED.

Global Instance ElementStatus_eq_dec : EqDecision ElementStatus.
Proof. solve_decision. Defined.

(** ** The [ProjectElementMemory] table

    The attributes the service reads or writes.  ([created_at] and
    [updated_at] default to the wall clock and are never read.) *)

Module ProjectElementMemory.

Record t : Type := make {
  memory_id : string;
  project_id : string;
  element_type : string;
  lifecycle : Lifecycle;
  first_detected_at : string;
  last_seen_at : string;
  max_count_seen : Z;
  current_count : Z;
  current_status : ElementStatus;
  times_detected : Z;
  times_hidden : Z;
  confidence_level : string;
  likely_covered_by : list string;
  notes : option string
}.

(** Attribute assignments, [memory.x = v]. *)
Definition set_last_seen_at (v : string) (m : t) : t :=
  let 'make a b c d e _ g h i j k l n o := m in make a b c d e v g h i j k l n o.
Definition set_max_count_seen (v : Z) (m : t) : t :=
  let 'make a b c d e f _ h i j k l n o := m in make a b c d e f v h i j k l n o.
Definition set_current_count (v : Z) (m : t) : t :=
  let 'make a b c d e f g _ i j k l n o := m in make a b c d e f g v i j k l n o.
Definition set_current_status (v : ElementStatus) (m : t) : t :=
  let 'make a b c d e f g h _ j k l n o := m in make a b c d e f g h v j k l n o.
Definition set_times_detected (v : Z) (m : t) : t :=
  let 'make a b c d e f g h i _ k l n o := m in make a b c d e f g h i v k l n o.
Definition set_times_hidden (v : Z) (m : t) : t :=
  let 'make a b c d e f g h i j _ l n o := m in make a b c d e f g h i j v l n o.
Definition set_confidence_level (v : string) (m : t) : t :=
  let 'make a b c d e f g h i j k _ n o := m in make a b c d e f g h i j k v n o.
Definition set_likely_covered_by (v : list string) (m : t) : t :=
  let 'make a b c d e f g h i j k l _ o := m in make a b c d e f g h i j k l v o.
Definition set_notes (v : option string) (m : t) : t :=
  let 'make a b c d e f g h i j k l n _ := m in make a b c d e f g h i j k l n v.

End ProjectElementMemory.

(** The table, by hash key. *)
Abbreviation Table := (gmap string ProjectElementMemory.t).

(** The outcome of a call that writes to the table: [memory.save()] raises
    [PutError] when DynamoDB refuses the item. *)
Inductive Try (A : Type) : Type :=
| Done (a : A)
| PutError.

Arguments Done {A} a.
Arguments PutError {A}.

Module Model.

(** [ProjectElementMemory.get(memory_id)]; [None] is [DoesNotExist]. *)
Definition get (k : string) (tb : Table) : option ProjectElementMemory.t :=
  tb !! k.

(** [memory.save()] of an item the table accepts: the item is written under
    its own hash key.  ([put] below adds the refusal.) *)
Definition save (m : ProjectElementMemory.t) (tb : Table) : Table :=
  <[ProjectElementMemory.memory_id m := m]> tb.

(** The order of the index [project_id_index]: by range key [element_type]. *)
Definition by_element_type (a b : ProjectElementMemory.t) : Prop :=
  Is_true (String.leb (ProjectElementMemory.element_type a)
                      (ProjectElementMemory.element_type b)).

#[global] Instance by_element_type_dec a b : Decision (by_element_type a b).
Proof. unfold by_element_type. apply _. Defined.

(** [ProjectElementMemory.project_id_index.query(project_id)]: the items of
    the project, in the order of the index. *)
Definition query (project_id : string) (tb : Table) : list ProjectElementMemory.t :=
  merge_sort by_element_type
    (filter (λ m, ProjectElementMemory.project_id m = project_id)
            (map_to_list tb).*2).

(** The items DynamoDB accepts: no key attribute may be the empty string,
    neither the hash key [memory_id] nor the keys [project_id] and
    [element_type] of the index [project_id_index]. *)
Definition accepted (m : ProjectElementMemory.t) : bool :=
  bool_decide (ProjectElementMemory.memory_id m ≠ "")
  && bool_decide (ProjectElementMemory.project_id m ≠ "")
  && bool_decide (ProjectElementMemory.element_type m ≠ "").

(** [memory.save()] with the refusal: [save] for an accepted item,
    [PutError] otherwise, the table unchanged. *)
Definition put (m : ProjectElementMemory.t) (tb : Table) : Try Table :=
  if accepted m then Done (save m tb) else PutError.

(** [memory.delete()]: the item under the hash key of [m] is removed. *)
Definition delete (m : ProjectElementMemory.t) (tb : Table) : Table :=
  base.delete (ProjectElementMemory.memory_id m) tb.

(** Every item of a table sits under its own hash key. *)
Definition keyed (tb : Table) : Prop :=
  ∀ k m, tb !! k = Some m → ProjectElementMemory.memory_id m = k.

End Model.

(** ** The result of [update_memory] *)

Module UpdateResult.

Record t : Type := make {
  element_type : string;
  lifecycle : Lifecycle;
  previous_count : Z;
  current_count_visible : Z;
  effective_count : Z;
  previous_status : ElementStatus;
  current_status : ElementStatus;
  max_count_seen : Z;
  confidence_level : string;
  notes : string;
  contributes_to_progress : bool
}.

End UpdateResult.

(** ** Element payloads

    The detected, adjusted and expected elements travel as [dict]s; these
    are the keys the three services read or write. *)

Module Elem.

Record t : Type := make {
  element_type : option string;
  count_visible : option Z;
  effective_count : option Z;
  status : option string;
  contributes_to_progress : option bool
}.

End Elem.

Module ElementStatusValue.

(** The string each constant of [ElementStatus] stands for. *)
Definition value (s : ElementStatus) : string :=
  match s with
  | VISIBLE => "visible"
  | HIDDEN => "hidden"
  | REMOVED => "removed"
  end.

End ElementStatusValue.

(** The result of [process_analysis_with_memory]. *)
Module AnalysisResult.

Record t : Type := make {
  adjusted_elements : list Elem.t;
  memory_updates : list UpdateResult.t;
  covering_elements_detected : list string
}.

End AnalysisResult.

(** ** [ElementMemoryService] *)

Module ElementMemoryService.

Import ProjectElementMemory.

(** [f"{project_id}#{element_type.lower()}"]. *)
Definition memory_key (project_id element_type : string) : string :=
  project_id ++ "#" ++ Str.lower element_type.

Definition get_or_create_memory
    (project_id element_type : string) (count : Z) (timestamp : string)
    (tb : Table) : ProjectElementMemory.t * Table :=
  let memory_id := memory_key project_id element_type in
  match Model.get memory_id tb with
  | Some memory => (memory, tb)
  | None =>
      let lifecycle := ElementLifecycle.classify element_type in
      let memory :=
        {| memory_id := memory_id;
           project_id := project_id;
           element_type := Str.lower element_type;
           lifecycle := lifecycle;
           first_detected_at := timestamp;
           last_seen_at := timestamp;
           max_count_seen := count;
           current_count := count;
           current_status := VISIBLE;
           times_detected := 1;
           times_hidden := 0;
           confidence_level := "medium";
           likely_covered_by := [];
           notes := None |} in
      (memory, Model.save memory tb)
  end.

(** Truth value of [covering_elements]: neither [None] nor empty. *)
Definition supplied (covering_elements : option (list string)) : option (list string) :=
  match covering_elements with
  | Some (c :: cs) => Some (c :: cs)
  | _ => None
  end.

(** The mutation [update_memory] performs on the loaded item, between the
    lookup and [memory.save()]. *)
Definition observe
    (current_count : Z) (timestamp : string)
    (covering_elements : option (list string))
    (memory : ProjectElementMemory.t) : ProjectElementMemory.t :=
  let max_count := max_count_seen memory in
  if 0 <? current_count then
    let memory := set_last_seen_at timestamp memory in
    let memory := set_times_detected (times_detected memory + 1) memory in
    let memory := set_max_count_seen (Z.max max_count current_count) memory in
    let memory := set_current_count current_count memory in
    set_current_status VISIBLE memory
  else
    let memory := set_times_hidden (times_hidden memory + 1) memory in
    match lifecycle memory with
    | PERMANENT =>
        let memory := set_current_status HIDDEN memory in
        match supplied covering_elements with
        | Some covering =>
            let memory := set_likely_covered_by covering memory in
            let memory := set_confidence_level "high" memory in
            set_notes
              (Some ("Provavelmente coberto por " ++ Str.join ", " covering))
              memory
        | None =>
            let memory := set_confidence_level "medium" memory in
            set_notes (Some "Não visível mas estrutura permanente mantida")
              memory
        end
    | TEMPORARY =>
        let memory := set_current_status REMOVED memory in
        let memory := set_current_count 0 memory in
        set_notes (Some "Elemento temporário removido (esperado)") memory
    | _ =>
        let memory := set_current_status HIDDEN memory in
        let memory := set_confidence_level "low" memory in
        set_notes (Some "Status incerto - requer revisão") memory
    end.

Definition update_memory
    (project_id element_type : string) (current_count : Z)
    (timestamp : string) (covering_elements : option (list string))
    (tb : Table) : UpdateResult.t * Table :=
  let '(memory, tb) :=
    get_or_create_memory project_id element_type current_count timestamp tb in
  let previous_count := ProjectElementMemory.current_count memory in
  let previous_status := current_status memory in
  let memory := observe current_count timestamp covering_elements memory in
  let tb := Model.save memory tb in
  let result :=
    {| UpdateResult.element_type := element_type;
       UpdateResult.lifecycle := lifecycle memory;
       UpdateResult.previous_count := previous_count;
       UpdateResult.current_count_visible := current_count;
       UpdateResult.effective_count := ProjectElementMemory.current_count memory;
       UpdateResult.previous_status := previous_status;
       UpdateResult.current_status := current_status memory;
       UpdateResult.max_count_seen := max_count_seen memory;
       UpdateResult.confidence_level := confidence_level memory;
       UpdateResult.notes := default "" (notes memory);
       UpdateResult.contributes_to_progress :=
         bool_decide (current_status memory ≠ REMOVED) |} in
  (result, tb).

(** [get_project_memory]: the items of the project by [element_type]. *)
Definition get_project_memory (project_id : string) (tb : Table)
    : list (string * ProjectElementMemory.t) :=
  foldl (λ result m, Dict.set (element_type m) m result) []
        (Model.query project_id tb).

Definition covering_candidates : list string :=
  ["wall"; "covering"; "slab"; "roof"; "panel"].

(** First loop of [process_analysis_with_memory]: group the detections by
    type and collect the covering types. *)
Fixpoint group_detected
    (detected_elements : list Elem.t)
    (detected_by_type : list (string * Z)) (covering_types : list string)
    : list (string * Z) * list string :=
  match detected_elements with
  | [] => (detected_by_type, covering_types)
  | elem :: rest =>
      let elem_type := Str.lower (default "" (Elem.element_type elem)) in
      let count_visible := default 1 (Elem.count_visible elem) in
      let detected_by_type := Dict.set elem_type count_visible detected_by_type in
      let covering_types :=
        if Str.mem elem_type covering_candidates
        then (covering_types ++ [elem_type])%list else covering_types in
      group_detected rest detected_by_type covering_types
  end.

(** Second loop: the types detected now. *)
Fixpoint update_detected
    (project_id timestamp : string) (covering_types : list string)
    (items : list (string * Z))
    (adjusted_elements : list Elem.t) (memory_updates : list UpdateResult.t)
    (tb : Table) : list Elem.t * list UpdateResult.t * Table :=
  match items with
  | [] => (adjusted_elements, memory_updates, tb)
  | (elem_type, count) :: rest =>
      let '(update, tb) :=
        update_memory project_id elem_type count timestamp
          (if decide (count = 0) then Some covering_types else None) tb in
      let memory_updates := (memory_updates ++ [update])%list in
      let adjusted_elements :=
        (adjusted_elements ++
         [ {| Elem.element_type := Some elem_type;
              Elem.count_visible := Some count;
              Elem.effective_count := Some (UpdateResult.effective_count update);
              Elem.status :=
                Some (ElementStatusValue.value (UpdateResult.current_status update));
              Elem.contributes_to_progress :=
                Some (UpdateResult.contributes_to_progress update) |} ])%list in
      update_detected project_id timestamp covering_types rest
        adjusted_elements memory_updates tb
  end.

(** Third loop: the types in memory that were not detected now. *)
Fixpoint update_undetected
    (project_id timestamp : string) (covering_types : list string)
    (detected_by_type : list (string * Z)) (memory_keys : list string)
    (adjusted_elements : list Elem.t) (memory_updates : list UpdateResult.t)
    (tb : Table) : list Elem.t * list UpdateResult.t * Table :=
  match memory_keys with
  | [] => (adjusted_elements, memory_updates, tb)
  | elem_type :: rest =>
      if Dict.contains elem_type detected_by_type then
        update_undetected project_id timestamp covering_types
          detected_by_type rest adjusted_elements memory_updates tb
      else
        let '(update, tb) :=
          update_memory project_id elem_type 0 timestamp
            (Some covering_types) tb in
        let memory_updates := (memory_updates ++ [update])%list in
        let adjusted_elements :=
          if UpdateResult.contributes_to_progress update then
            (adjusted_elements ++
             [ {| Elem.element_type := Some elem_type;
                  Elem.count_visible := Some 0;
                  Elem.effective_count :=
                    Some (UpdateResult.effective_count update);
                  Elem.status :=
                    Some (ElementStatusValue.value
                            (UpdateResult.current_status update));
                  Elem.contributes_to_progress := Some true |} ])%list
          else adjusted_elements in
        update_undetected project_id timestamp covering_types
          detected_by_type rest adjusted_elements memory_updates tb
  end.

(** [process_analysis_with_memory]; [now] is the reading of the clock used
    when no timestamp is given. *)
Definition process_analysis_with_memory
    (now : string)
    (project_id : string) (detected_elements : list Elem.t)
    (timestamp : option string) (tb : Table) : AnalysisResult.t * Table :=
  let timestamp := default now timestamp in
  let memory_dict := get_project_memory project_id tb in
  let '(detected_by_type, covering_types) :=
    group_detected detected_elements [] [] in
  let '(adjusted_elements, memory_updates, tb) :=
    update_detected project_id timestamp covering_types detected_by_type
      [] [] tb in
  let '(adjusted_elements, memory_updates, tb) :=
    update_undetected project_id timestamp covering_types detected_by_type
      (Dict.keys memory_dict) adjusted_elements memory_updates tb in
  ({| AnalysisResult.adjusted_elements := adjusted_elements;
      AnalysisResult.memory_updates := memory_updates;
      AnalysisResult.covering_elements_detected := covering_types |}, tb).

(** [clear_project_memory]: every item of the project is deleted; the
    result is the number of items deleted. *)
Definition clear_project_memory (project_id : string) (tb : Table) : Z * Table :=
  foldl (λ '(count, tb) _memory, (count + 1, Model.delete _memory tb))
        (0, tb) (Model.query project_id tb).

End ElementMemoryService.

(** ** [ElementMemoryService] with the refusals of the table

    The same methods, with [memory.save()] as [Model.put]: a [PutError] is
    not caught by any of them, so it ends the call; what was saved before
    stays saved.  The result is paired with the table the call leaves. *)

Module Persisted.

Import ProjectElementMemory.

Definition get_or_create_memory
    (project_id element_type : string) (count : Z) (timestamp : string)
    (tb : Table) : Try ProjectElementMemory.t * Table :=
  let memory_id := ElementMemoryService.memory_key project_id element_type in
  match Model.get memory_id tb with
  | Some memory => (Done memory, tb)
  | None =>
      let lifecycle := ElementLifecycle.classify element_type in
      let memory :=
        {| memory_id := memory_id;
           project_id := project_id;
           element_type := Str.lower element_type;
           lifecycle := lifecycle;
           first_detected_at := timestamp;
           last_seen_at := timestamp;
           max_count_seen := count;
           current_count := count;
           current_status := VISIBLE;
           times_detected := 1;
           times_hidden := 0;
           confidence_level := "medium";
           likely_covered_by := [];
           notes := None |} in
      match Model.put memory tb with
      | Done tb => (Done memory, tb)
      | PutError => (PutError, tb)
      end
  end.

Definition update_memory
    (project_id element_type : string) (current_count : Z)
    (timestamp : string) (covering_elements : option (list string))
    (tb : Table) : Try UpdateResult.t * Table :=
  match get_or_create_memory project_id element_type current_count timestamp tb
  with
  | (PutError, tb) => (PutError, tb)
  | (Done memory, tb) =>
      let previous_count := ProjectElementMemory.current_count memory in
      let previous_status := current_status memory in
      let memory :=
        ElementMemoryService.observe
          current_count timestamp covering_elements memory in
      match Model.put memory tb with
      | PutError => (PutError, tb)
      | Done tb =>
          (Done
             {| UpdateResult.element_type := element_type;
                UpdateResult.lifecycle := lifecycle memory;
                UpdateResult.previous_count := previous_count;
                UpdateResult.current_count_visible := current_count;
                UpdateResult.effective_count :=
                  ProjectElementMemory.current_count memory;
                UpdateResult.previous_status := previous_status;
                UpdateResult.current_status := current_status memory;
                UpdateResult.max_count_seen := max_count_seen memory;
                UpdateResult.confidence_level := confidence_level memory;
                UpdateResult.notes := default "" (notes memory);
                UpdateResult.contributes_to_progress :=
                  bool_decide (current_status memory ≠ REMOVED) |},
           tb)
      end
  end.

(** Second loop of [process_analysis_with_memory]. *)
Fixpoint update_detected
    (project_id timestamp : string) (covering_types : list string)
    (items : list (string * Z))
    (adjusted_elements : list Elem.t) (memory_updates : list UpdateResult.t)
    (tb : Table) : Try (list Elem.t * list UpdateResult.t) * Table :=
  match items with
  | [] => (Done (adjusted_elements, memory_updates), tb)
  | (elem_type, count) :: rest =>
      match update_memory project_id elem_type count timestamp
              (if decide (count = 0) then Some covering_types else None) tb
      with
      | (PutError, tb) => (PutError, tb)
      | (Done update, tb) =>
          let memory_updates := (memory_updates ++ [update])%list in
          let adjusted_elements :=
            (adjusted_elements ++
             [ {| Elem.element_type := Some elem_type;
                  Elem.count_visible := Some count;
                  Elem.effective_count :=
                    Some (UpdateResult.effective_count update);
                  Elem.status :=
                    Some (ElementStatusValue.value
                            (UpdateResult.current_status update));
                  Elem.contributes_to_progress :=
                    Some (UpdateResult.contributes_to_progress update) |} ])%list
          in
          update_detected project_id timestamp covering_types rest
            adjusted_elements memory_updates tb
      end
  end.

(** Third loop of [process_analysis_with_memory]. *)
Fixpoint update_undetected
    (project_id timestamp : string) (covering_types : list string)
    (detected_by_type : list (string * Z)) (memory_keys : list string)
    (adjusted_elements : list Elem.t) (memory_updates : list UpdateResult.t)
    (tb : Table) : Try (list Elem.t * list UpdateResult.t) * Table :=
  match memory_keys with
  | [] => (Done (adjusted_elements, memory_updates), tb)
  | elem_type :: rest =>
      if Dict.contains elem_type detected_by_type then
        update_undetected project_id timestamp covering_types
          detected_by_type rest adjusted_elements memory_updates tb
      else
        match update_memory project_id elem_type 0 timestamp
                (Some covering_types) tb
        with
        | (PutError, tb) => (PutError, tb)
        | (Done update, tb) =>
            let memory_updates := (memory_updates ++ [update])%list in
            let adjusted_elements :=
              if UpdateResult.contributes_to_progress update then
                (adjusted_elements ++
                 [ {| Elem.element_type := Some elem_type;
                      Elem.count_visible := Some 0;
                      Elem.effective_count :=
                        Some (UpdateResult.effective_count update);
                      Elem.status :=
                        Some (ElementStatusValue.value
                                (UpdateResult.current_status update));
                      Elem.contributes_to_progress := Some true |} ])%list
              else adjusted_elements in
            update_undetected project_id timestamp covering_types
              detected_by_type rest adjusted_elements memory_updates tb
        end
  end.

Definition process_analysis_with_memory
    (now : string)
    (project_id : string) (detected_elements : list Elem.t)
    (timestamp : option string) (tb : Table) : Try AnalysisResult.t * Table :=
  let timestamp := default now timestamp in
  let memory_dict := ElementMemoryService.get_project_memory project_id tb in
  let '(detected_by_type, covering_types) :=
    ElementMemoryService.group_detected detected_elements [] [] in
  match update_detected project_id timestamp covering_types detected_by_type
          [] [] tb
  with
  | (PutError, tb) => (PutError, tb)
  | (Done (adjusted_elements, memory_updates), tb) =>
      match update_undetected project_id timestamp covering_types
              detected_by_type (Dict.keys memory_dict)
              adjusted_elements memory_updates tb
      with
      | (PutError, tb) => (PutError, tb)
      | (Done (adjusted_elements, memory_updates), tb) =>
          (Done {| AnalysisResult.adjusted_elements := adjusted_elements;
                   AnalysisResult.memory_updates := memory_updates;
                   AnalysisResult.covering_elements_detected := covering_types |},
           tb)
      end
  end.

End Persisted.

(** ** Numbers *)

Module Py.

(** Nearest integer, ties to the even one. *)
Definition round_half_even (q : Q) : Z :=
  let f := Qfloor q in
  match (q - inject_Z f ?= 1 # 2)%Q with
  | Lt => f
  | Gt => f + 1
  | Eq => if Z.even f then f else f + 1
  end.

(** [round(q, ndigits)] on the exact value: the nearest multiple of
    [10^-ndigits], ties to the even one.  Python rounds the double nearest to
    the value, so the two may differ in the last digit kept where the exact
    value lies on a tie or within a float error of one (23/160*100 is
    14.375 exactly, 14.374999... as a double). *)
Definition round (q : Q) (ndigits : nat) : Q :=
  let scale := inject_Z (10 ^ Z.of_nat ndigits) in
  (inject_Z (round_half_even (q * scale)) / scale)%Q.

(** [a < b] on rationals, as a boolean. *)
Definition Qlt_bool (a b : Q) : bool := negb (Qle_bool b a).

(** [a / b] on integers (true division). *)
Definition truediv (a b : Z) : Q := (inject_Z a / inject_Z b)%Q.

End Py.

Module Counter.

(** [d[k] += n] on a [defaultdict(int)]. *)
Definition add (k : string) (n : Z) (d : list (string * Z)) : list (string * Z) :=
  Dict.set k (default 0 (Dict.get k d) + n) d.

End Counter.

(** ** [ProgressCalculator] *)

Module Category.

Record t : Type := make {
  built : Z;
  expected : Z;
  progress_percent : Q
}.

End Category.

Module VisualBuilt.

Record t : Type := make {
  by_type : list (string * Z);
  total_count : Z
}.

End VisualBuilt.

(** The progress report: the keys [progress_by_category], [total_built],
    [total_expected] and [mapping_ratio] are absent without a BIM model,
    [expected_count] and [message] are present only then. *)
Module ProgressReport.

Record t : Type := make {
  overall_progress : Q;
  detected_count : Z;
  progress_mode : string;
  expected_count : option Z;
  message : option string;
  progress_by_category : option (list (string * Category.t));
  total_built : option Z;
  total_expected : option Z;
  mapping_ratio : option Q
}.

End ProgressReport.

Module ProgressCalculator.

(** [elem.get("element_type", "unknown").lower()]. *)
Definition type_of (elem : Elem.t) : string :=
  Str.lower (default "unknown" (Elem.element_type elem)).

(** [elem.get("effective_count", 1)]. *)
Definition count_of (elem : Elem.t) : Z :=
  default 1 (Elem.effective_count elem).

Definition compute_visual_built (detected_elements : list Elem.t) : VisualBuilt.t :=
  let '(built_by_type, total_count) :=
    foldl (λ '(built_by_type, total_count) elem,
             (Counter.add (type_of elem) (count_of elem) built_by_type,
              total_count + count_of elem))
          ([], 0) detected_elements in
  {| VisualBuilt.by_type := built_by_type;
     VisualBuilt.total_count := total_count |}.

(** Expected elements grouped by type. *)
Definition group_expected (all_elements : list Elem.t) : list (string * Z) :=
  foldl (λ expected_by_type elem, Counter.add (type_of elem) 1 expected_by_type)
        [] all_elements.

(** Detected (or adjusted) elements grouped by type. *)
Definition group_built (detected_elements : list Elem.t) : list (string * Z) :=
  foldl (λ built_by_type elem,
           Counter.add (type_of elem) (count_of elem) built_by_type)
        [] detected_elements.

(** The loop over [expected_by_type.items()]: the category table and
    [total_built_from_categories]. *)
Definition categorize
    (built_by_type expected_by_type : list (string * Z))
    : list (string * Category.t) * Z :=
  foldl (λ '(progress_by_category, total_built_from_categories)
           '(elem_type, expected_count),
           let built_count := default 0 (Dict.get elem_type built_by_type) in
           let progress_percent :=
             if 0 <? expected_count
             then (Py.truediv built_count expected_count * 100)%Q else 0%Q in
           (Dict.set elem_type
              {| Category.built := built_count;
                 Category.expected := expected_count;
                 Category.progress_percent := Py.round progress_percent 2 |}
              progress_by_category,
            total_built_from_categories + built_count))
        ([], 0) expected_by_type.

(** [mapping_ratio], before it is rounded for the report. *)
Definition mapping_ratio_of (total_built_from_categories total_built : Z) : Q :=
  if 0 <? total_built
  then Py.truediv total_built_from_categories total_built else 0%Q.

Definition compute_progress_report
    (detected_elements all_elements : list Elem.t) : ProgressReport.t :=
  let total_expected := Z.of_nat (length all_elements) in
  let visual_built := compute_visual_built detected_elements in
  let total_built := VisualBuilt.total_count visual_built in
  let expected_by_type := group_expected all_elements in
  let built_by_type := group_built detected_elements in
  let '(progress_by_category, total_built_from_categories) :=
    categorize built_by_type expected_by_type in
  let mapping_ratio := mapping_ratio_of total_built_from_categories total_built in
  let '(progress_by_category, overall_progress, progress_mode) :=
    if Py.Qlt_bool mapping_ratio (1 # 2) then
      let progress_by_category :=
        [("elementos_detectados",
          {| Category.built := total_built;
             Category.expected := total_expected;
             Category.progress_percent :=
               if 0 <? total_expected
               then Py.round (Py.truediv total_built total_expected * 100) 2
               else 0%Q |})] in
      let overall_progress :=
        if 0 <? total_expected
        then (Py.truediv total_built total_expected * 100)%Q else 0%Q in
      (progress_by_category, overall_progress, "weak_matching")
    else
      let overall_progress :=
        if 0 <? total_expected
        then (Py.truediv total_built_from_categories total_expected * 100)%Q
        else 0%Q in
      (progress_by_category, overall_progress, "category_based") in
  {| ProgressReport.overall_progress := Py.round overall_progress 2;
     ProgressReport.detected_count := Z.of_nat (length detected_elements);
     ProgressReport.progress_mode := progress_mode;
     ProgressReport.expected_count := None;
     ProgressReport.message := None;
     ProgressReport.progress_by_category := Some progress_by_category;
     ProgressReport.total_built := Some total_built;
     ProgressReport.total_expected := Some total_expected;
     ProgressReport.mapping_ratio := Some (Py.round mapping_ratio 3) |}.

(** [adjusted_elements if adjusted_elements else detected_elements]. *)
Definition elements_to_use
    (detected_elements : list Elem.t) (adjusted_elements : option (list Elem.t))
    : list Elem.t :=
  match adjusted_elements with
  | Some (e :: es) => e :: es
  | _ => detected_elements
  end.

Definition calculate_progress_metrics
    (detected_elements all_elements : list Elem.t)
    (adjusted_elements : option (list Elem.t)) : ProgressReport.t :=
  match all_elements with
  | [] =>
      {| ProgressReport.overall_progress :=
           match detected_elements with [] => 0%Q | _ => 100%Q end;
         ProgressReport.detected_count := Z.of_nat (length detected_elements);
         ProgressReport.progress_mode := "no_bim";
         ProgressReport.expected_count := Some 0;
         ProgressReport.message :=
           Some "Progresso baseado apenas em elementos detectados (sem modelo BIM)";
         ProgressReport.progress_by_category := None;
         ProgressReport.total_built := None;
         ProgressReport.total_expected := None;
         ProgressReport.mapping_ratio := None |}
  | _ =>
      compute_progress_report
        (elements_to_use detected_elements adjusted_elements) all_elements
  end.

End ProgressCalculator.

(** ** Exceptions *)

Inductive PyError : Set :=
| KeyError (key : string).

Inductive Outcome (A : Type) : Type :=
| Return (a : A)
| Raise (e : PyError).

Arguments Return {A} a.
Arguments Raise {A} e.

(** ** [GeometricValidator] *)

(** The pydantic model of [hallucination_mitigation.py]. *)
Module DetectedElement.

Record t : Type := make {
  element_type : string;
  element_name : option string;
  confidence : string;
  status : string;
  description : string;
  visible_percentage : option Z;
  uncertainty_notes : option string
}.

#[global] Instance eq_dec : EqDecision t.
Proof. solve_decision. Defined.

End DetectedElement.

(** An issue; the key [element_type] is absent from some of them. *)
Module Issue.

Record t : Type := make {
  rule : string;
  severity : string;
  element_type : option string;
  message : string;
  likely_hallucination : bool
}.

End Issue.

Module ValidationResult.

Record t : Type := make {
  is_plausible : bool;
  issues : list Issue.t;
  confidence_penalty : Q;
  validated_elements : list DetectedElement.t;
  suspicious_elements : list DetectedElement.t
}.

End ValidationResult.

Module GeometricValidator.

Definition STRUCTURAL_DEPENDENCIES : list (string * list string) :=
  [("beam", ["column"; "wall"]);
   ("slab", ["beam"; "wall"; "column"])].

Definition REQUIRES_FOUNDATION : list string := ["column"; "wall"].

Definition CONSTRUCTION_SEQUENCE : list (string * Z) :=
  [("foundation", 1); ("footing", 1); ("pile", 1);
   ("column", 2); ("wall", 2);
   ("beam", 3); ("slab", 3);
   ("roof", 4);
   ("finishing", 5)].

(** [any(s in types_detected for s in l)]. *)
Definition any_in (l : list string) (types_detected : gset string) : bool :=
  existsb (λ s, bool_decide (s ∈ types_detected)) l.

Definition _validate_structural_support (types_detected : gset string)
    : list Issue.t :=
  flat_map
    (λ '(elem_type, required_supports),
       if bool_decide (elem_type ∈ types_detected)
          && negb (any_in required_supports types_detected)
       then [ {| Issue.rule := "missing_structural_support";
                 Issue.severity := "HIGH";
                 Issue.element_type := Some elem_type;
                 Issue.message :=
                   elem_type ++ " without support ("
                     ++ Str.join ", " required_supports ++ ")";
                 Issue.likely_hallucination := true |} ]
       else [])
    STRUCTURAL_DEPENDENCIES.

Definition _validate_foundation (types_detected : gset string)
    (strict_mode : bool) : list Issue.t :=
  let has_vertical := any_in REQUIRES_FOUNDATION types_detected in
  let has_foundation :=
    any_in ["foundation"; "footing"; "pile"; "slab"] types_detected in
  if has_vertical && negb has_foundation
  then [ {| Issue.rule := "missing_foundation";
            Issue.severity := if strict_mode then "HIGH" else "MEDIUM";
            Issue.element_type := None;
            Issue.message := "Vertical elements without foundation";
            Issue.likely_hallucination := false |} ]
  else [].

(** [status_by_type.setdefault(t, []).append(s)] over the elements. *)
Definition group_statuses (elements : list DetectedElement.t)
    : list (string * list string) :=
  foldl (λ status_by_type elem,
           let t := Str.lower (DetectedElement.element_type elem) in
           let s := Str.lower (DetectedElement.status elem) in
           Dict.set t (default [] (Dict.get t status_by_type) ++ [s])%list
                    status_by_type)
        [] elements.

(** The issues one completed type raises against the earlier types. *)
Definition sequence_issues_of
    (status_by_type : list (string * list string)) (elem_type : string)
    : list Issue.t :=
  let current_order := default 999 (Dict.get elem_type CONSTRUCTION_SEQUENCE) in
  flat_map
    (λ '(earlier_type, earlier_order),
       match Dict.get earlier_type status_by_type with
       | Some earlier_statuses =>
           if (earlier_order <? current_order)
              && Str.mem "not_started" earlier_statuses
              && negb (Str.mem "completed" earlier_statuses)
           then [ {| Issue.rule := "invalid_sequence";
                     Issue.severity := "HIGH";
                     Issue.element_type := None;
                     Issue.message :=
                       elem_type ++ " completed but " ++ earlier_type
                         ++ " not started";
                     Issue.likely_hallucination := true |} ]
           else []
       | None => []
       end)
    CONSTRUCTION_SEQUENCE.

Definition _validate_construction_sequence (elements : list DetectedElement.t)
    : list Issue.t :=
  let status_by_type := group_statuses elements in
  flat_map
    (λ '(elem_type, statuses),
       if Str.mem "completed" statuses
       then sequence_issues_of status_by_type elem_type else [])
    status_by_type.

(** The set comprehension of [_identify_suspicious]: [i["element_type"]] is
    evaluated for each issue that passes the filter, and raises [KeyError]
    where the key is absent. *)
Fixpoint suspicious_types (issues : list Issue.t) (acc : gset string)
    : Outcome (gset string) :=
  match issues with
  | [] => Return acc
  | i :: rest =>
      if bool_decide (Issue.severity i = "HIGH") && Issue.likely_hallucination i
      then match Issue.element_type i with
           | Some t => suspicious_types rest ({[t]} ∪ acc)
           | None => Raise (KeyError "element_type")
           end
      else suspicious_types rest acc
  end.

Definition _identify_suspicious
    (elements : list DetectedElement.t) (issues : list Issue.t)
    : Outcome (list DetectedElement.t) :=
  match suspicious_types issues ∅ with
  | Raise e => Raise e
  | Return types =>
      Return
        (filter
           (λ e, Str.lower (DetectedElement.element_type e) ∈ types
                 ∧ DetectedElement.confidence e ∈ ["MEDIUM"; "LOW"])
           elements)
  end.

(** [sum(1 for i in issues if i["severity"] == sev)]. *)
Definition count_severity (sev : string) (issues : list Issue.t) : Z :=
  Z.of_nat (length (filter (λ i, Issue.severity i = sev) issues)).

(** The issues of the three rules, in the order they are collected. *)
Definition collect_issues (detected_elements : list DetectedElement.t)
    (strict_mode : bool) : list Issue.t :=
  let types_detected : gset string :=
    list_to_set
      ((λ elem, Str.lower (DetectedElement.element_type elem))
         <$> detected_elements) in
  (_validate_structural_support types_detected
   ++ _validate_foundation types_detected strict_mode
   ++ _validate_construction_sequence detected_elements)%list.

Definition validate_elements (detected_elements : list DetectedElement.t)
    (strict_mode : bool) : Outcome ValidationResult.t :=
  match detected_elements with
  | [] =>
      Return {| ValidationResult.is_plausible := true;
                ValidationResult.issues := [];
                ValidationResult.confidence_penalty := 0%Q;
                ValidationResult.validated_elements := [];
                ValidationResult.suspicious_elements := [] |}
  | _ =>
      let issues := collect_issues detected_elements strict_mode in
      let high_severity := count_severity "HIGH" issues in
      let confidence_penalty :=
        Qmin (inject_Z high_severity * 0.15
              + inject_Z (count_severity "MEDIUM" issues) * 0.05)%Q
             0.5%Q in
      match _identify_suspicious detected_elements issues with
      | Raise e => Raise e
      | Return suspicious =>
          let validated :=
            filter (λ e, e ∉ suspicious) detected_elements in
          Return {| ValidationResult.is_plausible :=
                      bool_decide (high_severity = 0);
                    ValidationResult.issues := issues;
                    ValidationResult.confidence_penalty := confidence_penalty;
                    ValidationResult.validated_elements := validated;
                    ValidationResult.suspicious_elements := suspicious |}
      end
  end.

End GeometricValidator.

(** ** Further methods of [ProgressCalculator]

    The detections and the expected elements carry more keys than [Elem.t]
    has; [identify_alerts] and [compare_progress] read three of them. *)

Module Payload.

Record t : Type := make {
  elem : Elem.t;
  element_id : option string;
  name : option string;
  deviation : option string
}.

End Payload.

(** [project_data]: the key [elements]. *)
Module ProjectData.

Record t : Type := make {
  elements : option (list Payload.t)
}.

End ProjectData.

(** A stored analysis: the keys the calculator reads. *)
Module Analysis.

Record t : Type := make {
  detected_elements : option (list Payload.t);
  analyzed_at : option string;
  analysis_id : option string
}.

End Analysis.

Module TimelineEntry.

Record t : Type := make {
  date : string;
  analysis_id : option string;
  overall_progress : Q;
  progress_mode : string;
  detected_count : Z;
  progress_by_category : list (string * Category.t)
}.

End TimelineEntry.

Module Evolution.

Record t : Type := make {
  timeline : list TimelineEntry.t;
  total_analyses : Z;
  progress_rate : Q;
  current_progress : Q
}.

End Evolution.

Module CategoryChange.

Record t : Type := make {
  previous_progress : Q;
  current_progress : Q;
  delta : Q
}.

End CategoryChange.

(** The result of [compare_progress]; [category_changes] is filled while a
    [set] of names is iterated, so its order is not fixed: a finite map. *)
Module Comparison.

Record t : Type := make {
  progress_delta : Q;
  current_progress : Q;
  previous_progress : Q;
  new_elements_count : Z;
  removed_elements_count : Z;
  category_changes : gmap string CategoryChange.t;
  comparison_date : string;
  baseline_date : string
}.

End Comparison.

Module ProgressAnalysis.

Import ProgressCalculator.

(** [sum(1 for e in detected_elements if e.get("status") == status)]. *)
Definition count_status (status : string) (detected_elements : list Elem.t) : Z :=
  Z.of_nat (length (filter (λ e, Elem.status e = Some status) detected_elements)).

Definition calculate_overall_progress (detected_elements : list Elem.t) : Q :=
  match detected_elements with
  | [] => 0%Q
  | _ =>
      let total := Z.of_nat (length detected_elements) in
      let completed := count_status "completed" detected_elements in
      let in_progress := count_status "in_progress" detected_elements in
      let weighted :=
        ((inject_Z completed * 1 + inject_Z in_progress * 0.5)
         / inject_Z total * 100)%Q in
      Py.round weighted 2
  end.

(** First loop of [identify_alerts]: the expected elements whose id was not
    detected.  [element["element_id"]] and [element['element_type']] raise
    [KeyError] where the key is absent. *)
Fixpoint missing_alerts
    (all_elements : list Payload.t) (detected_ids : list (option string))
    (alerts : list string) : Outcome (list string) :=
  match all_elements with
  | [] => Return alerts
  | element :: rest =>
      match Payload.element_id element with
      | None => Raise (KeyError "element_id")
      | Some id =>
          if bool_decide (Some id ∈ detected_ids)
          then missing_alerts rest detected_ids alerts
          else
            match Elem.element_type (Payload.elem element) with
            | None => Raise (KeyError "element_type")
            | Some element_type =>
                let alert :=
                  element_type ++ " ("
                    ++ default "sem nome" (Payload.name element)
                    ++ ") não identificado na imagem" in
                missing_alerts rest detected_ids (alerts ++ [alert])%list
            end
      end
  end.

(** [element.get("deviation")] as a condition: present and not empty. *)
Definition deviation_of (element : Payload.t) : option string :=
  match Payload.deviation element with
  | Some "" => None
  | d => d
  end.

(** Second loop of [identify_alerts]: the detections with a deviation. *)
Fixpoint deviation_alerts
    (detected_elements : list Payload.t) (alerts : list string)
    : Outcome (list string) :=
  match detected_elements with
  | [] => Return alerts
  | element :: rest =>
      match deviation_of element with
      | None => deviation_alerts rest alerts
      | Some deviation =>
          match Elem.element_type (Payload.elem element) with
          | None => Raise (KeyError "element_type")
          | Some element_type =>
              let alert := "Desvio em " ++ element_type ++ ": " ++ deviation in
              deviation_alerts rest (alerts ++ [alert])%list
          end
      end
  end.

Definition identify_alerts
    (detected_elements : list Payload.t) (project_data : ProjectData.t)
    : Outcome (list string) :=
  let all_elements := default [] (ProjectData.elements project_data) in
  let detected_ids := Payload.element_id <$> detected_elements in
  match missing_alerts all_elements detected_ids [] with
  | Raise e => Raise e
  | Return alerts => deviation_alerts detected_elements alerts
  end.

(** One entry of the timeline of [calculate_progress_evolution]. *)
Definition timeline_entry (all_elements : list Elem.t) (analysis : Analysis.t)
    : TimelineEntry.t :=
  let detected_elements := default [] (Analysis.detected_elements analysis) in
  let analyzed_at := default "" (Analysis.analyzed_at analysis) in
  let progress_metrics :=
    calculate_progress_metrics (Payload.elem <$> detected_elements)
      all_elements None in
  {| TimelineEntry.date := analyzed_at;
     TimelineEntry.analysis_id := Analysis.analysis_id analysis;
     TimelineEntry.overall_progress :=
       ProgressReport.overall_progress progress_metrics;
     TimelineEntry.progress_mode :=
       ProgressReport.progress_mode progress_metrics;
     TimelineEntry.detected_count := Z.of_nat (length detected_elements);
     TimelineEntry.progress_by_category :=
       default [] (ProgressReport.progress_by_category progress_metrics) |}.

Definition calculate_progress_evolution
    (analyses : list Analysis.t) (all_elements : list Elem.t) : Evolution.t :=
  let timeline := timeline_entry all_elements <$> analyses in
  let progress_rate :=
    match timeline, last timeline with
    | first :: _ :: _, Some last_entry =>
        (TimelineEntry.overall_progress last_entry
         - TimelineEntry.overall_progress first)%Q
    | _, _ => 0%Q
    end in
  {| Evolution.timeline := timeline;
     Evolution.total_analyses := Z.of_nat (length timeline);
     Evolution.progress_rate := Py.round progress_rate 2;
     Evolution.current_progress :=
       match last timeline with
       | Some last_entry => TimelineEntry.overall_progress last_entry
       | None => 0%Q
       end |}.

(** [categories.get(category, {"progress_percent": 0.0})["progress_percent"]]. *)
Definition percent_of (category : string)
    (categories : list (string * Category.t)) : Q :=
  match Dict.get category categories with
  | Some c => Category.progress_percent c
  | None => 0%Q
  end.

(** The loop of [compare_progress] over the names of both tables. *)
Definition category_changes_of
    (current_categories previous_categories : list (string * Category.t))
    : gmap string CategoryChange.t :=
  let all_categories : gset string :=
    list_to_set (Dict.keys current_categories)
    ∪ list_to_set (Dict.keys previous_categories) in
  set_fold
    (λ category category_changes,
       let current := percent_of category current_categories in
       let previous := percent_of category previous_categories in
       let delta := (current - previous)%Q in
       if Qeq_bool delta 0 then category_changes
       else <[category :=
                {| CategoryChange.previous_progress := previous;
                   CategoryChange.current_progress := current;
                   CategoryChange.delta := Py.round delta 2 |}]>
              category_changes)
    ∅ all_categories.

Definition compare_progress
    (current_analysis previous_analysis : Analysis.t)
    (all_elements : list Elem.t) : Comparison.t :=
  let current_elements :=
    default [] (Analysis.detected_elements current_analysis) in
  let previous_elements :=
    default [] (Analysis.detected_elements previous_analysis) in
  let current_progress :=
    calculate_progress_metrics (Payload.elem <$> current_elements)
      all_elements None in
  let previous_progress :=
    calculate_progress_metrics (Payload.elem <$> previous_elements)
      all_elements None in
  let progress_delta :=
    (ProgressReport.overall_progress current_progress
     - ProgressReport.overall_progress previous_progress)%Q in
  let previous_ids : gset (option string) :=
    list_to_set (Payload.element_id <$> previous_elements) in
  let current_ids : gset (option string) :=
    list_to_set (Payload.element_id <$> current_elements) in
  let new_elements := current_ids ∖ previous_ids in
  let removed_elements := previous_ids ∖ current_ids in
  let current_categories :=
    default [] (ProgressReport.progress_by_category current_progress) in
  let previous_categories :=
    default [] (ProgressReport.progress_by_category previous_progress) in
  {| Comparison.progress_delta := Py.round progress_delta 2;
     Comparison.current_progress :=
       ProgressReport.overall_progress current_progress;
     Comparison.previous_progress :=
       ProgressReport.overall_progress previous_progress;
     Comparison.new_elements_count := Z.of_nat (size new_elements);
     Comparison.removed_elements_count := Z.of_nat (size removed_elements);
     Comparison.category_changes :=
       category_changes_of current_categories previous_categories;
     Comparison.comparison_date :=
       default "" (Analysis.analyzed_at current_analysis);
     Comparison.baseline_date :=
       default "" (Analysis.analyzed_at previous_analysis) |}.

End ProgressAnalysis.

(** ** The caller: [BIMAnalysisService.analyze_construction_image]

    Steps 8 and 9 of the method: the detections go through the memory and
    the progress is computed from the detections, the expected elements of
    the project and the adjusted elements.  (The steps before them call the
    vision model and the matchers.) *)

Module BIMAnalysisService.

Definition progress_with_memory
    (now : string) (project_id : string)
    (detected_elements : list Elem.t) (elements : option (list Elem.t))
    (tb : Table) : ProgressReport.t * Table :=
  let '(memory_result, tb) :=
    ElementMemoryService.process_analysis_with_memory
      now project_id detected_elements None tb in
  let adjusted_elements := AnalysisResult.adjusted_elements memory_result in
  let progress_metrics :=
    ProgressCalculator.calculate_progress_metrics
      detected_elements (default [] elements) (Some adjusted_elements) in
  (progress_metrics, tb).

End BIMAnalysisService.

(** ** Observations on the table *)

Module Stored.

(** The item of [(project_id, element_type)], if any. *)
Definition lookup (project_id element_type : string) (tb : Table)
    : option ProjectElementMemory.t :=
  tb !! ElementMemoryService.memory_key project_id element_type.

(** The lifecycle the item of [(project_id, element_type)] has, or is
    created with by the next [update_memory]. *)
Definition lifecycle (project_id element_type : string) (tb : Table)
    : Lifecycle :=
  match lookup project_id element_type tb with
  | Some m => ProjectElementMemory.lifecycle m
  | None => ElementLifecycle.classify element_type
  end.

End Stored.

(** A sequence of [update_memory] calls on one [(project_id, element_type)]:
    the arguments of each call, and the item found in the table after each
    of them. *)
Module Calls.

Record call : Type := make {
  current_count : Z;
  timestamp : string;
  covering_elements : option (list string)
}.

Fixpoint items_after (project_id element_type : string) (calls : list call)
    (tb : Table) : list (option ProjectElementMemory.t) :=
  match calls with
  | [] => []
  | c :: rest =>
      let tb' :=
        (ElementMemoryService.update_memory project_id element_type
           (current_count c) (timestamp c) (covering_elements c) tb).2 in
      Stored.lookup project_id element_type tb'
      :: items_after project_id element_type rest tb'
  end.

End Calls.

(** The item [update_memory] writes back: the loaded (or created) item after
    the mutation. *)
Definition updated (project_id element_type : string) (current_count : Z)
    (timestamp : string) (covering_elements : option (list string))
    (tb : Table) : ProjectElementMemory.t :=
  ElementMemoryService.observe current_count timestamp covering_elements
    (ElementMemoryService.get_or_create_memory
       project_id element_type current_count timestamp tb).1.

(** ** Observations on the progress computation *)

Module Progress.

Import ProgressCalculator.

(** [total_built_from_categories] of [compute_progress_report]. *)
Definition built_from_categories (detected_elements all_elements : list Elem.t)
    : Z :=
  (categorize (group_built detected_elements) (group_expected all_elements)).2.

(** The per-category table of [compute_progress_report], before the mode is
    chosen. *)
Definition breakdown (detected_elements all_elements : list Elem.t)
    : list (string * Category.t) :=
  (categorize (group_built detected_elements) (group_expected all_elements)).1.

(** [mapping_ratio] as [compute_progress_report] computes it, before it is
    rounded for the report. *)
Definition mapping_ratio (detected_elements all_elements : list Elem.t) : Q :=
  mapping_ratio_of
    (built_from_categories detected_elements all_elements)
    (VisualBuilt.total_count (compute_visual_built detected_elements)).

(** The sum of the values of a counter. *)
Definition total (d : list (string * Z)) : Z := foldr Z.add 0 d.*2.

(** The sum of the counts of the elements of one type. *)
Definition built_of_type (k : string) (detected_elements : list Elem.t) : Z :=
  foldr Z.add 0
    (count_of <$> filter (λ e, type_of e = k) detected_elements).

(** The number of expected elements of one type. *)
Definition expected_of_type (k : string) (all_elements : list Elem.t) : Z :=
  Z.of_nat (length (filter (λ e, type_of e = k) all_elements)).

(** The entry [compute_progress_report] files for a category. *)
Definition entry_of (built_count expected_count : Z) : Category.t :=
  {| Category.built := built_count;
     Category.expected := expected_count;
     Category.progress_percent :=
       Py.round
         (if 0 <? expected_count
          then (Py.truediv built_count expected_count * 100)%Q else 0%Q) 2 |}.

End Progress.

(** An issue that passes the filter of [_identify_suspicious]. *)
Definition flagged (i : Issue.t) : bool :=
  bool_decide (Issue.severity i = "HIGH") && Issue.likely_hallucination i.

(** The dictionary key [process_analysis_with_memory] files a detection
    under: [elem.get("element_type", "").lower()]. *)
Definition detection_key (elem : Elem.t) : string :=
  Str.lower (default "" (Elem.element_type elem)).

(** * Properties of [ElementMemoryService] *)

Section memory_facts.

Import ProjectElementMemory ElementMemoryService.

Implicit Types (tb : Table) (m : ProjectElementMemory.t) (c : Z).
Implicit Types (p et ts : string) (cov : option (list string)).

(** *** The mutation [observe] *)

Lemma observe_memory_id c ts cov m :
  memory_id (observe c ts cov m) = memory_id m.
Proof.
  unfold observe. destruct m as [? ? ? lc ? ? ? ? ? ? ? ? ? ?]; simpl.
  destruct (0 <? c); [done|].
  destruct lc; simpl; [destruct (supplied cov)|..]; done.
Qed.

Lemma observe_lifecycle c ts cov m :
  lifecycle (observe c ts cov m) = lifecycle m.
Proof.
  unfold observe. destruct m as [? ? ? lc ? ? ? ? ? ? ? ? ? ?]; simpl.
  destruct (0 <? c); [done|].
  destruct lc; simpl; [destruct (supplied cov)|..]; done.
Qed.

Lemma observe_max_count_seen c ts cov m :
  max_count_seen (observe c ts cov m)
  = if 0 <? c then Z.max (max_count_seen m) c else max_count_seen m.
Proof.
  unfold observe. destruct m as [? ? ? lc ? ? ? ? ? ? ? ? ? ?]; simpl.
  destruct (0 <? c); [done|].
  destruct lc; simpl; [destruct (supplied cov)|..]; done.
Qed.

Lemma observe_times_detected c ts cov m :
  times_detected (observe c ts cov m)
  = if 0 <? c then times_detected m + 1 else times_detected m.
Proof.
  unfold observe. destruct m as [? ? ? lc ? ? ? ? ? ? ? ? ? ?]; simpl.
  destruct (0 <? c); [done|].
  destruct lc; simpl; [destruct (supplied cov)|..]; done.
Qed.

Lemma observe_current_status c ts cov m :
  current_status (observe c ts cov m)
  = if 0 <? c then VISIBLE
    else match lifecycle m with TEMPORARY => REMOVED | _ => HIDDEN end.
Proof.
  unfold observe. destruct m as [? ? ? lc ? ? ? ? ? ? ? ? ? ?]; simpl.
  destruct (0 <? c); [done|].
  destruct lc; simpl; [destruct (supplied cov)|..]; done.
Qed.

Lemma observe_current_count c ts cov m :
  current_count (observe c ts cov m)
  = if 0 <? c then c
    else match lifecycle m with TEMPORARY => 0 | _ => current_count m end.
Proof.
  unfold observe. destruct m as [? ? ? lc ? ? ? ? ? ? ? ? ? ?]; simpl.
  destruct (0 <? c); [done|].
  destruct lc; simpl; [destruct (supplied cov)|..]; done.
Qed.

(** *** Lookup-or-create *)

Lemma get_or_create_memory_id p et c ts tb :
  Model.keyed tb →
  memory_id (get_or_create_memory p et c ts tb).1 = memory_key p et.
Proof.
  intros Hk. unfold get_or_create_memory, Model.get.
  destruct (tb !! memory_key p et) as [m|] eqn:E; simpl; [|done].
  by apply Hk.
Qed.

Lemma get_or_create_lifecycle p et c ts tb :
  lifecycle (get_or_create_memory p et c ts tb).1 = Stored.lifecycle p et tb.
Proof.
  unfold get_or_create_memory, Stored.lifecycle, Stored.lookup, Model.get.
  by destruct (tb !! memory_key p et).
Qed.

Lemma get_or_create_keyed p et c ts tb :
  Model.keyed tb → Model.keyed (get_or_create_memory p et c ts tb).2.
Proof.
  intros Hk. unfold get_or_create_memory, Model.get, Model.save.
  destruct (tb !! memory_key p et) as [m|] eqn:E; simpl; [done|].
  intros k m. rewrite lookup_insert. case_decide; [|by apply Hk].
  intros [= <-]. by subst.
Qed.

(** *** [update_memory] *)

Lemma update_memory_table p et c ts cov tb :
  (update_memory p et c ts cov tb).2
  = Model.save (updated p et c ts cov tb) (get_or_create_memory p et c ts tb).2.
Proof.
  unfold update_memory, updated.
  by destruct (get_or_create_memory p et c ts tb).
Qed.

Lemma update_memory_result p et c ts cov tb :
  let m := updated p et c ts cov tb in
  let r := (update_memory p et c ts cov tb).1 in
  UpdateResult.lifecycle r = lifecycle m
  ∧ UpdateResult.effective_count r = current_count m
  ∧ UpdateResult.current_status r = current_status m
  ∧ UpdateResult.max_count_seen r = max_count_seen m
  ∧ UpdateResult.current_count_visible r = c
  ∧ UpdateResult.element_type r = et
  ∧ UpdateResult.contributes_to_progress r
    = bool_decide (current_status m ≠ REMOVED).
Proof.
  unfold update_memory, updated.
  by destruct (get_or_create_memory p et c ts tb).
Qed.

Lemma update_memory_lookup p et c ts cov tb :
  Model.keyed tb →
  Stored.lookup p et (update_memory p et c ts cov tb).2
  = Some (updated p et c ts cov tb).
Proof.
  intros Hk. rewrite update_memory_table. unfold Model.save, Stored.lookup.
  unfold updated at 1. rewrite observe_memory_id, get_or_create_memory_id by done.
  apply lookup_insert_eq.
Qed.

Lemma update_memory_keyed p et c ts cov tb :
  Model.keyed tb → Model.keyed (update_memory p et c ts cov tb).2.
Proof.
  intros Hk. rewrite update_memory_table. unfold Model.save.
  intros k m. rewrite lookup_insert. case_decide.
  - intros [= <-]. by subst.
  - by apply get_or_create_keyed.
Qed.

Lemma keyed_empty : Model.keyed ∅.
Proof. intros k m. by rewrite lookup_empty. Qed.

(** The lifecycle of an item never changes. *)
Lemma update_memory_lifecycle p et c ts cov tb :
  Model.keyed tb →
  Stored.lifecycle p et (update_memory p et c ts cov tb).2
  = Stored.lifecycle p et tb.
Proof.
  intros Hk. unfold Stored.lifecycle at 1.
  rewrite update_memory_lookup by done.
  unfold updated. by rewrite observe_lifecycle, get_or_create_lifecycle.
Qed.

(** After a first update the item exists, and the next lookup finds it. *)
Lemma get_or_create_after_update p et c ts cov c' ts' tb :
  Model.keyed tb →
  (get_or_create_memory p et c' ts' (update_memory p et c ts cov tb).2).1
  = updated p et c ts cov tb.
Proof.
  intros Hk. unfold get_or_create_memory at 1, Model.get.
  pose proof (update_memory_lookup p et c ts cov tb Hk) as E.
  unfold Stored.lookup in E. by rewrite E.
Qed.

(** The item written by a second update is the mutation of the first one. *)
Lemma updated_after_update p et c ts cov c' ts' cov' tb :
  Model.keyed tb →
  updated p et c' ts' cov' (update_memory p et c ts cov tb).2
  = observe c' ts' cov' (updated p et c ts cov tb).
Proof.
  intros Hk. unfold updated at 1.
  by rewrite get_or_create_after_update.
Qed.

Lemma updated_lifecycle p et c ts cov tb :
  lifecycle (updated p et c ts cov tb) = Stored.lifecycle p et tb.
Proof. unfold updated. by rewrite observe_lifecycle, get_or_create_lifecycle. Qed.

End memory_facts.

(** ** Claims on the memory service *)

Section memory_claims.

Import ProjectElementMemory ElementMemoryService.

Implicit Types (tb : Table) (m : ProjectElementMemory.t) (c : Z).
Implicit Types (p et ts : string) (cov : option (list string)).

(** One step: from any table, two consecutive calls on the same
    [(project, element_type)] leave the item with a [max_count_seen] that
    did not decrease. *)
Lemma max_count_seen_step p et c1 ts1 cov1 c2 ts2 cov2 tb :
  Model.keyed tb →
  let tb1 := (update_memory p et c1 ts1 cov1 tb).2 in
  let tb2 := (update_memory p et c2 ts2 cov2 tb1).2 in
  ∃ m1 m2,
    Stored.lookup p et tb1 = Some m1
    ∧ Stored.lookup p et tb2 = Some m2
    ∧ max_count_seen m1 ≤ max_count_seen m2.
Proof.
  intros Hk tb1 tb2.
  assert (Hk1 : Model.keyed tb1) by by apply update_memory_keyed.
  exists (updated p et c1 ts1 cov1 tb), (updated p et c2 ts2 cov2 tb1).
  split; [by apply update_memory_lookup|].
  split; [by apply update_memory_lookup|].
  subst tb1. rewrite updated_after_update by done.
  rewrite observe_max_count_seen. destruct (0 <? c2); lia.
Qed.

(** C8.  Monotonicity of [max_count_seen]: for any sequence of
    [update_memory] calls on the same [(project, element_type)], started
    from any table, the item exists after update N−1 and after update N, and
    its [max_count_seen] after update N is at least its value after update
    N−1; this holds for every visible count, non-negative or not. *)
Theorem max_count_seen_monotone p et (calls : list Calls.call) tb
    (n : nat) (before after : option ProjectElementMemory.t) :
  Model.keyed tb →
  Calls.items_after p et calls tb !! n = Some before →
  Calls.items_after p et calls tb !! S n = Some after →
  ∃ m1 m2, before = Some m1 ∧ after = Some m2
           ∧ max_count_seen m1 ≤ max_count_seen m2.
Proof.
  revert tb n. induction calls as [|c1 rest IH]; intros tb n Hk; [done|].
  destruct n as [|n]; simpl.
  - intros [= <-]. destruct rest as [|c2 rest]; [done|]. simpl.
    intros [= <-].
    destruct (max_count_seen_step p et
                (Calls.current_count c1) (Calls.timestamp c1)
                (Calls.covering_elements c1)
                (Calls.current_count c2) (Calls.timestamp c2)
                (Calls.covering_elements c2) tb Hk)
      as (m1 & m2 & H1 & H2 & Hle).
    exists m1, m2. auto.
  - apply IH. by apply update_memory_keyed.
Qed.

Lemma max_count_seen_monotone_witness :
  let calls :=
    [ Calls.make 3 "t1" None; Calls.make 0 "t2" (Some ["wall"]);
      Calls.make 5 "t3" None; Calls.make 1 "t4" None ] in
  ∃ before after,
    Calls.items_after "p" "Column" calls ∅ !! 2%nat = Some before
    ∧ Calls.items_after "p" "Column" calls ∅ !! 3%nat = Some after
    ∧ ∃ m1 m2, before = Some m1 ∧ after = Some m2
               ∧ max_count_seen m1 ≤ max_count_seen m2.
Proof.
  intros calls.
  destruct (Calls.items_after "p" "Column" calls ∅ !! 2%nat)
    as [before|] eqn:E1; [|vm_compute in E1; discriminate E1].
  destruct (Calls.items_after "p" "Column" calls ∅ !! 3%nat)
    as [after|] eqn:E2; [|vm_compute in E2; discriminate E2].
  exists before, after. split; [reflexivity|]. split; [reflexivity|].
  apply (max_count_seen_monotone "p" "Column" calls ∅ 2 before after).
  - apply keyed_empty.
  - exact E1.
  - exact E2.
Defined.

(** C10.  First-detection counter seeding: when [update_memory] finds no item
    for [(project, element_type)] and the visible count is positive, the item
    stored afterwards has [times_detected = 2]: creation seeds 1 and the
    visible branch of the same call adds 1. *)
Theorem first_detection_times_detected p et c ts cov tb :
  Stored.lookup p et tb = None →
  0 < c →
  ∃ m, Stored.lookup p et (update_memory p et c ts cov tb).2 = Some m
       ∧ times_detected m = 2.
Proof.
  intros Hnone Hc. unfold Stored.lookup in *.
  exists (updated p et c ts cov tb).
  rewrite update_memory_table. unfold Model.save, updated.
  rewrite observe_memory_id, observe_times_detected.
  unfold get_or_create_memory, Model.get. rewrite Hnone. simpl.
  split; [apply lookup_insert_eq|].
  destruct (Z.ltb_spec 0 c); lia.
Qed.

Lemma first_detection_times_detected_witness :
  ∃ m, Stored.lookup "p" "wall" (update_memory "p" "wall" 4 "t1" None ∅).2
       = Some m
       ∧ times_detected m = 2.
Proof.
  apply (first_detection_times_detected "p" "wall" 4 "t1" None ∅).
  - reflexivity.
  - lia.
Defined.

(** C3.  Hidden-permanent persistence: for an item of permanent lifecycle,
    an update with visible count 3 followed by an update with visible count
    0 leaves [current_count = 3] and [current_status = hidden] in the stored
    item, and the second result reports [effective_count = 3], status
    [hidden] and [contributes_to_progress = true]. *)
Theorem hidden_permanent_persistence p et ts1 cov1 ts2 cov2 tb :
  Model.keyed tb →
  Stored.lifecycle p et tb = PERMANENT →
  let tb1 := (update_memory p et 3 ts1 cov1 tb).2 in
  let r2 := (update_memory p et 0 ts2 cov2 tb1).1 in
  let tb2 := (update_memory p et 0 ts2 cov2 tb1).2 in
  UpdateResult.effective_count r2 = 3
  ∧ UpdateResult.current_status r2 = HIDDEN
  ∧ UpdateResult.contributes_to_progress r2 = true
  ∧ ∃ m, Stored.lookup p et tb2 = Some m
         ∧ current_count m = 3 ∧ current_status m = HIDDEN.
Proof.
  intros Hk Hl tb1 r2 tb2.
  assert (Hk1 : Model.keyed tb1) by by apply update_memory_keyed.
  destruct (update_memory_result p et 0 ts2 cov2 tb1)
    as (_ & Hcount & Hstatus & _ & _ & _ & Hcontrib).
  fold r2 in Hcount, Hstatus, Hcontrib.
  assert (Hm : current_count (updated p et 0 ts2 cov2 tb1) = 3
               ∧ current_status (updated p et 0 ts2 cov2 tb1) = HIDDEN).
  { subst tb1. rewrite updated_after_update by done.
    rewrite observe_current_count, observe_current_status. simpl.
    rewrite updated_lifecycle, Hl.
    unfold updated. by rewrite observe_current_count. }
  destruct Hm as [Hc Hs].
  rewrite Hcount, Hstatus, Hcontrib, Hc, Hs.
  repeat split; try done.
  exists (updated p et 0 ts2 cov2 tb1).
  split; [by apply update_memory_lookup|done].
Qed.

Lemma hidden_permanent_persistence_witness :
  let tb1 := (update_memory "p" "Column" 3 "t1" None ∅).2 in
  let r2 := (update_memory "p" "Column" 0 "t2" (Some ["wall"]) tb1).1 in
  let tb2 := (update_memory "p" "Column" 0 "t2" (Some ["wall"]) tb1).2 in
  UpdateResult.effective_count r2 = 3
  ∧ UpdateResult.current_status r2 = HIDDEN
  ∧ UpdateResult.contributes_to_progress r2 = true
  ∧ ∃ m, Stored.lookup "p" "Column" tb2 = Some m
         ∧ current_count m = 3 ∧ current_status m = HIDDEN.
Proof.
  apply (hidden_permanent_persistence "p" "Column" "t1" None "t2"
           (Some ["wall"]) ∅).
  - apply keyed_empty.
  - reflexivity.
Defined.

(** C4.  Temporary removal zeroing: for an item of temporary lifecycle, an
    update with visible count 2 followed by an update with visible count 0
    leaves [current_count = 0] and [current_status = removed] in the stored
    item, and the second result reports [contributes_to_progress = false]. *)
Theorem temporary_removal_zeroing p et ts1 cov1 ts2 cov2 tb :
  Model.keyed tb →
  Stored.lifecycle p et tb = TEMPORARY →
  let tb1 := (update_memory p et 2 ts1 cov1 tb).2 in
  let r2 := (update_memory p et 0 ts2 cov2 tb1).1 in
  let tb2 := (update_memory p et 0 ts2 cov2 tb1).2 in
  UpdateResult.effective_count r2 = 0
  ∧ UpdateResult.current_status r2 = REMOVED
  ∧ UpdateResult.contributes_to_progress r2 = false
  ∧ ∃ m, Stored.lookup p et tb2 = Some m
         ∧ current_count m = 0 ∧ current_status m = REMOVED.
Proof.
  intros Hk Hl tb1 r2 tb2.
  assert (Hk1 : Model.keyed tb1) by by apply update_memory_keyed.
  destruct (update_memory_result p et 0 ts2 cov2 tb1)
    as (_ & Hcount & Hstatus & _ & _ & _ & Hcontrib).
  fold r2 in Hcount, Hstatus, Hcontrib.
  assert (Hm : current_count (updated p et 0 ts2 cov2 tb1) = 0
               ∧ current_status (updated p et 0 ts2 cov2 tb1) = REMOVED).
  { subst tb1. rewrite updated_after_update by done.
    rewrite observe_current_count, observe_current_status. simpl.
    by rewrite updated_lifecycle, Hl. }
  destruct Hm as [Hc Hs].
  rewrite Hcount, Hstatus, Hcontrib, Hc, Hs.
  repeat split; try done.
  exists (updated p et 0 ts2 cov2 tb1).
  split; [by apply update_memory_lookup|done].
Qed.

Lemma temporary_removal_zeroing_witness :
  let tb1 := (update_memory "p" "Scaffold" 2 "t1" None ∅).2 in
  let r2 := (update_memory "p" "Scaffold" 0 "t2" None tb1).1 in
  let tb2 := (update_memory "p" "Scaffold" 0 "t2" None tb1).2 in
  UpdateResult.effective_count r2 = 0
  ∧ UpdateResult.current_status r2 = REMOVED
  ∧ UpdateResult.contributes_to_progress r2 = false
  ∧ ∃ m, Stored.lookup "p" "Scaffold" tb2 = Some m
         ∧ current_count m = 0 ∧ current_status m = REMOVED.
Proof.
  apply (temporary_removal_zeroing "p" "Scaffold" "t1" None "t2" None ∅).
  - apply keyed_empty.
  - reflexivity.
Defined.

(** C2, as the code has it.  After an [update_memory] with a non-negative
    visible count, the stored item has [current_status = hidden] only when
    the visible count of that call is 0 and its lifecycle is permanent,
    finishing or unknown (any lifecycle but temporary); and an item of
    finishing lifecycle updated with visible count 0 does end [hidden]. *)
Theorem hidden_only_when_unseen_and_not_temporary p et c ts cov tb :
  Model.keyed tb →
  0 ≤ c →
  ∃ m, Stored.lookup p et (update_memory p et c ts cov tb).2 = Some m
       ∧ (current_status m = HIDDEN →
          c = 0 ∧ (lifecycle m = PERMANENT ∨ lifecycle m = FINISHING
                   ∨ lifecycle m = UNKNOWN))
       ∧ (c = 0 → lifecycle m = FINISHING → current_status m = HIDDEN).
Proof.
  intros Hk Hc. exists (updated p et c ts cov tb).
  split; [by apply update_memory_lookup|].
  unfold updated. rewrite observe_current_status, observe_lifecycle.
  destruct (Z.ltb_spec 0 c) as [Hpos|Hle].
  - split; [done|]. intros ->. lia.
  - destruct (lifecycle _); split; intros; try done;
      (split; [lia|]); auto.
Qed.

Lemma hidden_only_when_unseen_and_not_temporary_witness :
  ∃ m, Stored.lookup "p" "door" (update_memory "p" "door" 0 "t1" None ∅).2
       = Some m
       ∧ (current_status m = HIDDEN →
          0 = 0 ∧ (lifecycle m = PERMANENT ∨ lifecycle m = FINISHING
                   ∨ lifecycle m = UNKNOWN))
       ∧ (0 = 0 → lifecycle m = FINISHING → current_status m = HIDDEN).
Proof.
  apply (hidden_only_when_unseen_and_not_temporary "p" "door" 0 "t1" None ∅).
  - apply keyed_empty.
  - lia.
Defined.

(** C2, as stated, fails: a door (finishing lifecycle) seen once and then
    not seen ends the second update with [current_status = hidden]. *)
Lemma finishing_record_ends_hidden :
  let tb1 := (update_memory "p" "door" 1 "t1" None ∅).2 in
  let tb2 := (update_memory "p" "door" 0 "t2" None tb1).2 in
  ∃ m, Stored.lookup "p" "door" tb2 = Some m
       ∧ lifecycle m = FINISHING
       ∧ current_status m = HIDDEN
       ∧ ¬ (lifecycle m = PERMANENT ∨ lifecycle m = UNKNOWN).
Proof.
  eexists. split; [vm_compute; reflexivity|]. simpl.
  repeat split; intros [H|H]; discriminate H.
Qed.

End memory_claims.

(** * Properties of [ProgressCalculator] *)

Section progress_facts.

Import ProgressCalculator.

Lemma Qlt_bool_iff (a b : Q) : Py.Qlt_bool a b = true ↔ (a < b)%Q.
Proof.
  unfold Py.Qlt_bool. rewrite negb_true_iff.
  destruct (Qle_bool b a) eqn:E.
  - apply Qle_bool_iff in E. split; [done|].
    intros H. by apply Qlt_not_le in H.
  - split; [intros _|done]. apply Qnot_le_lt. intros H.
    apply Qle_bool_iff in H. congruence.
Qed.

(** The mode and the table of a report, by the branch taken. *)
Lemma compute_progress_report_branch (d a : list Elem.t) :
  let r := compute_progress_report d a in
  if Py.Qlt_bool (Progress.mapping_ratio d a) (1 # 2)
  then ProgressReport.progress_mode r = "weak_matching"
       ∧ ∃ entry, ProgressReport.progress_by_category r
                  = Some [("elementos_detectados", entry)]
  else ProgressReport.progress_mode r = "category_based"
       ∧ ProgressReport.progress_by_category r = Some (Progress.breakdown d a).
Proof.
  unfold compute_progress_report, Progress.mapping_ratio, Progress.breakdown,
    Progress.built_from_categories.
  destruct (categorize (group_built d) (group_expected a)) as [table mapped].
  simpl.
  destruct (Py.Qlt_bool _ _); simpl; eauto.
Qed.

Lemma calculate_progress_metrics_with_bim (d a : list Elem.t) adj :
  a ≠ [] →
  calculate_progress_metrics d a adj
  = compute_progress_report (elements_to_use d adj) a.
Proof. by destruct a. Qed.

End progress_facts.

(** ** Claims on the progress calculator *)

Section progress_claims.

Import ProgressCalculator.

(** C5.  The mode boundary is inclusive: with a non-empty expected set, when
    [mapping_ratio] is exactly 0.5 the report has [progress_mode =
    "category_based"] and keeps the full per-category table; and
    ["weak_matching"] is the mode exactly when [mapping_ratio < 0.5]. *)
Theorem mode_boundary_inclusive (d a : list Elem.t) adj :
  a ≠ [] →
  let used := elements_to_use d adj in
  let r := calculate_progress_metrics d a adj in
  (Progress.mapping_ratio used a == 1 # 2 →
   ProgressReport.progress_mode r = "category_based"
   ∧ ProgressReport.progress_by_category r = Some (Progress.breakdown used a))
  ∧ (ProgressReport.progress_mode r = "weak_matching"
     ↔ (Progress.mapping_ratio used a < 1 # 2)%Q).
Proof.
  intros Ha used r. subst r.
  rewrite calculate_progress_metrics_with_bim by done. fold used.
  pose proof (compute_progress_report_branch used a) as Hb. simpl in Hb.
  destruct (Py.Qlt_bool _ _) eqn:E.
  - apply Qlt_bool_iff in E. destruct Hb as [Hm _]. split.
    + intros Heq. rewrite Heq in E. by apply Qlt_irrefl in E.
    + by rewrite Hm.
  - destruct Hb as [Hm Ht]. split; [done|].
    rewrite Hm. split; [done|]. intros Hlt.
    apply Qlt_bool_iff in Hlt. congruence.
Qed.

Lemma mode_boundary_inclusive_witness :
  let wall := Elem.make (Some "wall") None None None None in
  let beam := Elem.make (Some "Beam") None None None None in
  let crane := Elem.make (Some "crane") None None None None in
  Progress.mapping_ratio [wall; crane] [wall; beam] == 1 # 2
  ∧ ProgressReport.progress_mode
      (calculate_progress_metrics [wall; crane] [wall; beam] None)
    = "category_based"
  ∧ ProgressReport.progress_by_category
      (calculate_progress_metrics [wall; crane] [wall; beam] None)
    = Some (Progress.breakdown [wall; crane] [wall; beam]).
Proof.
  intros wall beam crane.
  assert (H : Progress.mapping_ratio [wall; crane] [wall; beam] == 1 # 2)
    by (vm_compute; reflexivity).
  split; [exact H|].
  apply (mode_boundary_inclusive [wall; crane] [wall; beam] None);
    [discriminate|exact H].
Defined.

(** C6.  No-BIM case: with an empty expected list,
    [calculate_progress_metrics] returns [overall_progress = 100.0] when
    something was detected and [0.0] when nothing was, with [progress_mode =
    "no_bim"] and no per-category table. *)
Theorem no_bim_progress (d : list Elem.t) adj :
  let r := calculate_progress_metrics d [] adj in
  ProgressReport.overall_progress r = (if d is [] then 0%Q else 100%Q)
  ∧ ProgressReport.progress_mode r = "no_bim"
  ∧ ProgressReport.progress_by_category r = None.
Proof. by destruct d. Qed.

(** The ratio printed in the report is rounded to three decimals, so a
    report may show [mapping_ratio = 0.5] in mode ["weak_matching"]: the
    mode is chosen on the ratio before rounding (here 4996/10000). *)
Example reported_ratio_is_rounded :
  let wall := Elem.make (Some "wall") None (Some 4996) None None in
  let crane := Elem.make (Some "crane") None (Some 5004) None None in
  let r := calculate_progress_metrics [wall; crane] [wall] None in
  ProgressReport.progress_mode r = "weak_matching"
  ∧ (ProgressReport.mapping_ratio r = Some (500 # 1000)).
Proof. vm_compute. done. Qed.

End progress_claims.

(** * Properties of [GeometricValidator] *)

Section validator_facts.

Import GeometricValidator.

(** A flagged issue without the key [element_type] makes the comprehension
    raise, wherever it stands in the list. *)
Lemma suspicious_types_raises (issues : list Issue.t) (acc : gset string) :
  (∃ i, i ∈ issues ∧ flagged i = true ∧ Issue.element_type i = None) →
  suspicious_types issues acc = Raise (KeyError "element_type").
Proof.
  revert acc. induction issues as [|j rest IH]; intros acc (i & Hin & Hf & Hn).
  - by apply elem_of_nil in Hin.
  - simpl. fold (flagged j).
    apply elem_of_cons in Hin as [->|Hin].
    + by rewrite Hf, Hn.
    + destruct (flagged j); [destruct (Issue.element_type j)|]; eauto.
Qed.

(** When every flagged issue carries the key, the comprehension returns. *)
Lemma suspicious_types_returns (issues : list Issue.t) (acc : gset string) :
  (∀ i, i ∈ issues → flagged i = true → is_Some (Issue.element_type i)) →
  ∃ types, suspicious_types issues acc = Return types.
Proof.
  revert acc. induction issues as [|j rest IH]; intros acc Hall; simpl.
  - eauto.
  - fold (flagged j). destruct (flagged j) eqn:Hf.
    + destruct (Hall j) as [t ->]; [left|done|].
      apply IH. intros i Hi. apply Hall. by right.
    + apply IH. intros i Hi. apply Hall. by right.
Qed.

(** Every issue of the sequence rule is flagged and has no [element_type]. *)
Lemma sequence_issue_shape (elements : list DetectedElement.t) (i : Issue.t) :
  i ∈ _validate_construction_sequence elements →
  flagged i = true ∧ Issue.element_type i = None.
Proof.
  unfold _validate_construction_sequence.
  intros Hin. apply list_elem_of_In, in_flat_map in Hin as ([t sts] & _ & Hin).
  destruct (Str.mem "completed" sts); [|by apply in_nil in Hin].
  unfold sequence_issues_of in Hin.
  apply in_flat_map in Hin as ([et ord] & _ & Hin).
  destruct (Dict.get et _); [|by apply in_nil in Hin].
  destruct (_ && _); [|by apply in_nil in Hin].
  by destruct Hin as [<-|[]].
Qed.

(** The issues of the other two rules never make the comprehension raise. *)
Lemma support_issue_shape (types : gset string) (i : Issue.t) :
  i ∈ _validate_structural_support types → is_Some (Issue.element_type i).
Proof.
  unfold _validate_structural_support, STRUCTURAL_DEPENDENCIES. simpl.
  repeat (destruct (_ && _)); simpl; intros Hin;
    repeat (apply elem_of_cons in Hin as [->|Hin]; [by eexists|]);
    by apply elem_of_nil in Hin.
Qed.

Lemma foundation_issue_shape (types : gset string) strict (i : Issue.t) :
  i ∈ _validate_foundation types strict → flagged i = false.
Proof.
  unfold _validate_foundation.
  destruct (_ && _); [|by intros ?%elem_of_nil].
  intros ->%list_elem_of_singleton. unfold flagged. simpl.
  apply andb_false_r.
Qed.

(** [validate_elements] returns exactly when the sequence rule is silent. *)
Lemma validate_elements_returns (elements : list DetectedElement.t) strict :
  _validate_construction_sequence elements = [] →
  ∃ r, validate_elements elements strict = Return r.
Proof.
  intros Hseq. destruct elements as [|e rest]; [by eexists|].
  unfold validate_elements, _identify_suspicious.
  destruct (suspicious_types_returns
              (collect_issues (e :: rest) strict) ∅) as [types ->];
    [|by eexists].
  unfold collect_issues. rewrite Hseq, app_nil_r.
  intros i [Hi|Hi]%elem_of_app Hf.
  - by eapply support_issue_shape.
  - apply foundation_issue_shape in Hi. congruence.
Qed.

End validator_facts.

(** ** Claims on the validator *)

Section validator_claims.

Import GeometricValidator.

(** C1.  [validate_elements] is not total: on every input for which the
    sequence rule finds a violation, [_identify_suspicious] reads the key
    [element_type] of an [invalid_sequence] issue, which has none, and the
    call ends in [KeyError] instead of a result. *)
Theorem sequence_violation_raises (elements : list DetectedElement.t) strict :
  _validate_construction_sequence elements ≠ [] →
  validate_elements elements strict = Raise (KeyError "element_type").
Proof.
  intros Hseq.
  destruct (_validate_construction_sequence elements) as [|i rest] eqn:E;
    [done|].
  destruct elements as [|e els]; [discriminate E|].
  unfold validate_elements, _identify_suspicious.
  rewrite suspicious_types_raises; [done|].
  exists i. unfold collect_issues. rewrite E.
  destruct (sequence_issue_shape (e :: els) i) as [Hf Hn];
    [rewrite E; left|].
  split; [|done]. rewrite !elem_of_app. right. right. left.
Qed.

Lemma sequence_violation_raises_witness :
  let column :=
    DetectedElement.make "column" None "HIGH" "completed" "" None None in
  let foundation :=
    DetectedElement.make "foundation" None "HIGH" "not_started" "" None None in
  _validate_construction_sequence [column; foundation] ≠ []
  ∧ validate_elements [column; foundation] false
    = Raise (KeyError "element_type").
Proof.
  intros column foundation.
  assert (H : _validate_construction_sequence [column; foundation] ≠ [])
    by (vm_compute; discriminate).
  split; [exact H|].
  apply (sequence_violation_raises [column; foundation] false H).
Defined.

(** C9.  The penalty is computed and then lost.  On every input for which
    the sequence rule reports an issue, [validate_elements] counts that
    issue as a HIGH one, so the penalty it computes,
    min(0.15 × #HIGH + 0.05 × #MEDIUM, 0.5), lies between 0.15 and 0.5;
    the call then ends in [KeyError] in [_identify_suspicious] and returns
    no [confidence_penalty] and no [is_plausible]. *)
Theorem penalty_lost_on_sequence_violation
    (elements : list DetectedElement.t) strict :
  _validate_construction_sequence elements ≠ [] →
  let issues := collect_issues elements strict in
  let confidence_penalty :=
    Qmin (inject_Z (count_severity "HIGH" issues) * 0.15
          + inject_Z (count_severity "MEDIUM" issues) * 0.05)%Q 0.5%Q in
  1 ≤ count_severity "HIGH" issues
  ∧ (0.15 <= confidence_penalty <= 0.5)%Q
  ∧ validate_elements elements strict = Raise (KeyError "element_type").
Proof.
  intros Hseq issues confidence_penalty.
  destruct (_validate_construction_sequence elements) as [|i rest] eqn:E;
    [done|].
  destruct (sequence_issue_shape elements i) as [Hf Hn]; [rewrite E; left|].
  assert (Hin : i ∈ issues).
  { unfold issues, collect_issues. rewrite E, !elem_of_app. right. right. left. }
  assert (Hhigh : 1 ≤ count_severity "HIGH" issues).
  { unfold count_severity.
    assert (Hi : i ∈ filter (λ j, Issue.severity j = "HIGH") issues).
    { apply list_elem_of_filter. split; [|done].
      unfold flagged in Hf. apply andb_true_iff in Hf as [Hs _].
      by apply bool_decide_eq_true in Hs. }
    destruct (filter _ issues); [by apply elem_of_nil in Hi|]. simpl. lia. }
  split; [exact Hhigh|]. split.
  - assert (Hmed : 0 ≤ count_severity "MEDIUM" issues)
      by (unfold count_severity; lia).
    rewrite Zle_Qle in Hhigh. rewrite Zle_Qle in Hmed.
    unfold confidence_penalty. split.
    + apply Q.min_glb; [|by vm_compute].
      set (h := inject_Z (count_severity "HIGH" issues)) in *.
      set (m := inject_Z (count_severity "MEDIUM" issues)) in *.
      change (inject_Z 1) with 1%Q in Hhigh.
      change (inject_Z 0) with 0%Q in Hmed. lra.
    + apply Q.le_min_r.
  - destruct elements as [|e els]; [discriminate E|].
    unfold validate_elements, _identify_suspicious.
    fold issues. rewrite suspicious_types_raises; [done|].
    by exists i.
Qed.

Lemma penalty_lost_on_sequence_violation_witness :
  let foundation :=
    DetectedElement.make "foundation" None "HIGH" "not_started" "" None None in
  let column :=
    DetectedElement.make "column" None "HIGH" "completed" "" None None in
  let wall :=
    DetectedElement.make "wall" None "HIGH" "completed" "" None None in
  let beam :=
    DetectedElement.make "beam" None "HIGH" "completed" "" None None in
  let slab :=
    DetectedElement.make "slab" None "HIGH" "completed" "" None None in
  let elements := [foundation; column; wall; beam; slab] in
  let issues := collect_issues elements false in
  count_severity "HIGH" issues = 4
  ∧ count_severity "MEDIUM" issues = 0
  ∧ (Qmin (inject_Z (count_severity "HIGH" issues) * 0.15
           + inject_Z (count_severity "MEDIUM" issues) * 0.05) 0.5 == 0.5)%Q
  ∧ validate_elements elements false = Raise (KeyError "element_type").
Proof.
  intros foundation column wall beam slab elements issues.
  assert (H : _validate_construction_sequence elements ≠ [])
    by (vm_compute; discriminate).
  split; [by vm_compute|]. split; [by vm_compute|]. split; [by vm_compute|].
  apply (penalty_lost_on_sequence_violation elements false H).
Defined.

End validator_claims.

(** * Properties of [process_analysis_with_memory] *)

Section analysis_facts.

Import ElementMemoryService.

Lemma dict_set_key {V} (k : string) (v : V) (d : list (string * V)) :
  k ∈ (Dict.set k v d).*1.
Proof.
  induction d as [|[k' v'] d IH]; simpl; [by left|].
  case_decide; simpl; [by left|by right].
Qed.

Lemma dict_set_keys_mono {V} (k k' : string) (v : V) (d : list (string * V)) :
  k' ∈ d.*1 → k' ∈ (Dict.set k v d).*1.
Proof.
  induction d as [|[k0 v0] d IH]; simpl; [by intros ?%elem_of_nil|].
  intros [->|Hin]%elem_of_cons; case_decide; subst; simpl;
    try (by left); right; auto.
Qed.

(** The first loop keeps every key it has filed. *)
Lemma group_detected_keeps elems dbt cov (k : string) :
  k ∈ dbt.*1 → k ∈ (group_detected elems dbt cov).1.*1.
Proof.
  revert dbt cov. induction elems as [|e rest IH]; intros dbt cov Hk; simpl;
    [done|].
  apply IH. by apply dict_set_keys_mono.
Qed.

(** The first loop files every detection under its [detection_key]. *)
Lemma group_detected_files elems dbt cov (e : Elem.t) :
  e ∈ elems → detection_key e ∈ (group_detected elems dbt cov).1.*1.
Proof.
  revert dbt cov. induction elems as [|e' rest IH]; intros dbt cov;
    [by intros ?%elem_of_nil|].
  intros [->|Hin]%elem_of_cons; simpl; [|by apply IH].
  apply group_detected_keeps, dict_set_key.
Qed.

(** The second loop only appends, and appends one adjusted element and one
    update per item, under the item's type. *)
Lemma update_detected_keeps p ts cov items adj upd tb :
  let out := update_detected p ts cov items adj upd tb in
  (∀ a, a ∈ adj → a ∈ out.1.1) ∧ (∀ u, u ∈ upd → u ∈ out.1.2).
Proof.
  revert adj upd tb. induction items as [|[k c] rest IH]; intros adj upd tb;
    simpl; [done|].
  destruct (update_memory p k c ts _ tb) as [u tb'].
  match goal with
  | |- context [update_detected p ts cov rest ?adj' ?upd' tb'] =>
      destruct (IH adj' upd' tb') as [Ha Hu]
  end.
  split; intros x Hx; [apply Ha|apply Hu]; apply elem_of_app; by left.
Qed.

Lemma update_detected_processes p ts cov items adj upd tb (k : string) :
  k ∈ items.*1 →
  let out := update_detected p ts cov items adj upd tb in
  (∃ a, a ∈ out.1.1 ∧ Elem.element_type a = Some k)
  ∧ (∃ u, u ∈ out.1.2 ∧ UpdateResult.element_type u = k).
Proof.
  revert adj upd tb. induction items as [|[k' c] rest IH]; intros adj upd tb;
    [by intros ?%elem_of_nil|].
  intros Hin. simpl.
  pose proof (update_memory_result p k' c ts
                (if decide (c = 0) then Some cov else None) tb)
    as (_ & _ & _ & _ & _ & Het & _).
  destruct (update_memory p k' c ts _ tb) as [u tb']. simpl in Het.
  apply elem_of_cons in Hin as [Hk|Hin]; [simpl in Hk; subst k'|by apply IH].
  match goal with
  | |- context [update_detected p ts cov rest ?adj' ?upd' tb'] =>
      destruct (update_detected_keeps p ts cov rest adj' upd' tb') as [Ha Hu]
  end.
  split.
  - eexists. split; [apply Ha, elem_of_app; right; left|done].
  - exists u. split; [apply Hu, elem_of_app; right; left|done].
Qed.

(** The third loop only appends. *)
Lemma update_undetected_keeps p ts cov dbt keys adj upd tb :
  let out := update_undetected p ts cov dbt keys adj upd tb in
  (∀ a, a ∈ adj → a ∈ out.1.1) ∧ (∀ u, u ∈ upd → u ∈ out.1.2).
Proof.
  revert adj upd tb. induction keys as [|k rest IH]; intros adj upd tb;
    simpl; [done|].
  destruct (Dict.contains k dbt); [apply IH|].
  destruct (update_memory p k 0 ts (Some cov) tb) as [u tb'].
  match goal with
  | |- context [update_undetected p ts cov dbt rest ?adj' ?upd' tb'] =>
      destruct (IH adj' upd' tb') as [Ha Hu]
  end.
  split; intros x Hx; [apply Ha|apply Hu; apply elem_of_app; by left].
  destruct (UpdateResult.contributes_to_progress u); [|done].
  apply elem_of_app; by left.
Qed.

End analysis_facts.

(** ** The table's refusals *)

Section persisted_facts.

Import ProjectElementMemory ElementMemoryService.

Implicit Types (tb : Table) (m : ProjectElementMemory.t) (c : Z).
Implicit Types (p et ts : string) (cov : option (list string)).

Lemma lower_empty (s : string) : Str.lower s = "" → s = "".
Proof. by destruct s. Qed.

Lemma memory_key_empty p (k : string) :
  memory_key p k = memory_key p "" → k = "".
Proof.
  unfold memory_key. intros H. apply lower_empty.
  apply (inj (String.append p)) in H. simpl in H. by injection H.
Qed.

(** [Model.put] either refuses or does what [Model.save] does. *)
Lemma put_done m tb tb' :
  Model.put m tb = Done tb' →
  tb' = Model.save m tb ∧ element_type m ≠ "".
Proof.
  unfold Model.put, Model.accepted. intros H.
  destruct (bool_decide (element_type m ≠ "")) eqn:E.
  - apply bool_decide_eq_true in E.
    destruct (_ && _ && true); [|discriminate]. by injection H as <-.
  - by rewrite andb_false_r in H.
Qed.

Lemma put_refuses_empty_type m tb :
  element_type m = "" → Model.put m tb = PutError.
Proof.
  intros E. unfold Model.put, Model.accepted. rewrite E.
  by rewrite andb_false_r.
Qed.

(** Where the table accepts what is written, the methods with refusals do
    what the methods without them do. *)
Lemma persisted_get_or_create_done p et c ts tb m tb' :
  Persisted.get_or_create_memory p et c ts tb = (Done m, tb') →
  get_or_create_memory p et c ts tb = (m, tb').
Proof.
  unfold Persisted.get_or_create_memory, get_or_create_memory.
  destruct (Model.get (memory_key p et) tb); [by intros [= <- <-]|].
  match goal with |- context [Model.put ?x tb] =>
    destruct (Model.put x tb) as [tb1|] eqn:E end; [|discriminate].
  intros [= <- <-]. by apply put_done in E as [-> _].
Qed.

Lemma persisted_update_memory_done p et c ts cov tb r tb' :
  Persisted.update_memory p et c ts cov tb = (Done r, tb') →
  update_memory p et c ts cov tb = (r, tb').
Proof.
  unfold Persisted.update_memory, update_memory.
  destruct (Persisted.get_or_create_memory p et c ts tb) as [[m|] tb1] eqn:E;
    [|discriminate].
  rewrite (persisted_get_or_create_done _ _ _ _ _ _ _ E).
  destruct (Model.put (observe c ts cov m) tb1) as [tb2|] eqn:E2;
    [|discriminate].
  intros [= <- <-]. by apply put_done in E2 as [-> _].
Qed.

Lemma persisted_update_detected_done p ts cv items adj upd tb out tb' :
  Persisted.update_detected p ts cv items adj upd tb = (Done out, tb') →
  update_detected p ts cv items adj upd tb = (out, tb').
Proof.
  revert adj upd tb. induction items as [|[k c] items IH]; intros adj upd tb.
  - by intros [= <- <-].
  - cbn [Persisted.update_detected update_detected].
    destruct (Persisted.update_memory p k c ts _ tb) as [[u|] tb1] eqn:E;
      [|discriminate].
    rewrite (persisted_update_memory_done _ _ _ _ _ _ _ _ E). apply IH.
Qed.

Lemma persisted_update_undetected_done p ts cv dbt keys adj upd tb out tb' :
  Persisted.update_undetected p ts cv dbt keys adj upd tb = (Done out, tb') →
  update_undetected p ts cv dbt keys adj upd tb = (out, tb').
Proof.
  revert adj upd tb. induction keys as [|k keys IH]; intros adj upd tb.
  - by intros [= <- <-].
  - cbn [Persisted.update_undetected update_undetected].
    destruct (Dict.contains k dbt); [apply IH|].
    destruct (Persisted.update_memory p k 0 ts _ tb) as [[u|] tb1] eqn:E;
      [|discriminate].
    rewrite (persisted_update_memory_done _ _ _ _ _ _ _ _ E). apply IH.
Qed.

Lemma persisted_process_analysis_done now p (elems : list Elem.t) ots tb r tb' :
  Persisted.process_analysis_with_memory now p elems ots tb = (Done r, tb') →
  process_analysis_with_memory now p elems ots tb = (r, tb').
Proof.
  unfold Persisted.process_analysis_with_memory, process_analysis_with_memory.
  destruct (group_detected elems [] []) as [dbt cv].
  destruct (Persisted.update_detected p _ cv dbt [] [] tb)
    as [[[adj upd]|] tb1] eqn:E1; [|discriminate].
  rewrite (persisted_update_detected_done _ _ _ _ _ _ _ _ _ E1).
  destruct (Persisted.update_undetected p _ cv dbt _ adj upd tb1)
    as [[[adj' upd']|] tb2] eqn:E2; [|discriminate].
  rewrite (persisted_update_undetected_done _ _ _ _ _ _ _ _ _ _ E2).
  by intros [= <- <-].
Qed.

(** An accepted [update_memory] leaves the table keyed and touches the key
    of its own type only. *)
Lemma persisted_update_memory_frame p et c ts cov tb r tb' :
  Model.keyed tb →
  Persisted.update_memory p et c ts cov tb = (Done r, tb') →
  Model.keyed tb'
  ∧ ∀ k : string, k ≠ memory_key p et → Model.get k tb' = Model.get k tb.
Proof.
  intros Hk H. apply persisted_update_memory_done in H.
  split.
  - replace tb' with (update_memory p et c ts cov tb).2 by by rewrite H.
    by apply update_memory_keyed.
  - intros k Hne.
    replace tb' with (update_memory p et c ts cov tb).2 by by rewrite H.
    rewrite update_memory_table. unfold Model.get, Model.save, updated.
    rewrite observe_memory_id, get_or_create_memory_id by done.
    rewrite lookup_insert_ne by done.
    unfold get_or_create_memory, Model.get, Model.save.
    destruct (tb !! memory_key p et); simpl; [done|].
    by rewrite lookup_insert_ne.
Qed.

(** The item of the empty type is refused when it is created. *)
Lemma persisted_update_memory_empty_type p c ts cov tb :
  Model.get (memory_key p "") tb = None →
  Persisted.update_memory p "" c ts cov tb = (PutError, tb).
Proof.
  intros H. unfold Persisted.update_memory, Persisted.get_or_create_memory.
  rewrite H. by rewrite put_refuses_empty_type.
Qed.

Lemma persisted_update_detected_empty_type p ts cv items adj upd tb :
  Model.keyed tb →
  Model.get (memory_key p "") tb = None →
  "" ∈ items.*1 →
  (Persisted.update_detected p ts cv items adj upd tb).1 = PutError.
Proof.
  revert adj upd tb. induction items as [|[k c] items IH];
    intros adj upd tb Hk Hget Hin.
  - by apply elem_of_nil in Hin.
  - cbn [Persisted.update_detected].
    destruct (decide (k = "")) as [->|Hne].
    + by rewrite persisted_update_memory_empty_type.
    + destruct (Persisted.update_memory p k c ts _ tb) as [[u|] tb1] eqn:E;
        [|done].
      destruct (persisted_update_memory_frame _ _ _ _ _ _ _ _ Hk E)
        as [Hk1 Hfr].
      apply IH; [done| |].
      * rewrite Hfr; [done|]. intros Heq. symmetry in Heq.
        by apply memory_key_empty in Heq.
      * rewrite fmap_cons in Hin. apply elem_of_cons in Hin as [Heq|Hin];
          [|done]. by simpl in Heq.
Qed.

End persisted_facts.

(** ** Claims on [process_analysis_with_memory] *)

Section analysis_claims.

Import ElementMemoryService.

(** C7, as the code has it.  A detection without the key [element_type] is
    not rejected on its own: the first loop files it under the default type,
    the empty string, and the second loop calls [update_memory] for that
    type; the table refuses an item whose [element_type] is empty, so
    [memory.save()] raises and the whole call ends in that [PutError],
    without a result for any detection. *)
Theorem missing_element_type_ends_in_put_error
    now p (elems : list Elem.t) ts tb (e : Elem.t) :
  Model.keyed tb →
  Model.get (memory_key p "") tb = None →
  e ∈ elems →
  Elem.element_type e = None →
  "" ∈ Dict.keys (group_detected elems [] []).1
  ∧ (Persisted.process_analysis_with_memory now p elems ts tb).1 = PutError.
Proof.
  intros Hk Hget Hin Hnone.
  pose proof (group_detected_files elems [] [] e Hin) as Hkey.
  unfold detection_key in Hkey. rewrite Hnone in Hkey. simpl in Hkey.
  split; [done|].
  unfold Persisted.process_analysis_with_memory.
  destruct (group_detected elems [] []) as [dbt cv]. simpl in Hkey.
  pose proof (persisted_update_detected_empty_type p (default now ts) cv dbt
                [] [] tb Hk Hget Hkey) as H.
  destruct (Persisted.update_detected p (default now ts) cv dbt [] [] tb)
    as [[[adj upd]|] tb1]; [discriminate H|done].
Qed.

Lemma missing_element_type_ends_in_put_error_witness :
  let e := Elem.make None (Some 2) None None None in
  let wall := Elem.make (Some "Wall") (Some 1) None None None in
  "" ∈ Dict.keys (group_detected [wall; e] [] []).1
  ∧ (Persisted.process_analysis_with_memory "2024-05-01T10:00:00" "p"
       [wall; e] None ∅).1 = PutError.
Proof.
  intros e wall.
  apply (missing_element_type_ends_in_put_error "2024-05-01T10:00:00" "p"
           [wall; e] None ∅ e).
  - apply keyed_empty.
  - reflexivity.
  - right. left.
  - reflexivity.
Defined.

(** C7, as stated, fails: a detection that lacks [element_type] gets no
    validation error of its own.  It is filed under the type [""] next to
    the wall; the wall's item is written, then the item of type [""] is
    refused by the table and the call as a whole ends in [PutError], with no
    result for the wall either. *)
Lemma missing_element_type_aborts_analysis :
  let e := Elem.make None (Some 2) None None None in
  let wall := Elem.make (Some "Wall") (Some 1) None None None in
  let out := Persisted.process_analysis_with_memory "2024-05-01T10:00:00" "p"
               [wall; e] None ∅ in
  (group_detected [wall; e] [] []).1 = [("wall", 1); ("", 2)]
  ∧ out.1 = PutError
  ∧ (ProjectElementMemory.current_count <$> out.2 !! "p#wall") = Some 1
  ∧ out.2 !! "p#" = None.
Proof. vm_compute. done. Qed.

End analysis_claims.

(** * Further properties of [update_memory] *)

Section memory_item_properties.

Import ProjectElementMemory ElementMemoryService.

Implicit Types (tb : Table) (m : ProjectElementMemory.t) (c : Z).
Implicit Types (p et ts : string) (cov : option (list string)).

(** The fields [observe] never writes, and the ones it leaves alone when
    the element is not seen. *)
Lemma observe_fixed_fields c ts cov m :
  let m' := observe c ts cov m in
  project_id m' = project_id m
  ∧ element_type m' = element_type m
  ∧ first_detected_at m' = first_detected_at m
  ∧ (c ≤ 0 →
     last_seen_at m' = last_seen_at m
     ∧ max_count_seen m' = max_count_seen m
     ∧ times_detected m' = times_detected m
     ∧ times_hidden m' = times_hidden m + 1)
  ∧ (0 < c →
     last_seen_at m' = ts
     ∧ times_detected m' = times_detected m + 1
     ∧ times_hidden m' = times_hidden m).
Proof.
  unfold observe. destruct m as [? ? ? lc ? ? ? ? ? ? ? ? ? ?]; simpl.
  destruct (Z.ltb_spec 0 c); simpl.
  - repeat split; try done; lia.
  - destruct lc; simpl; [destruct (supplied cov)|..]; simpl;
      repeat split; try done; lia.
Qed.

(** X1.  The lifecycle of an item is fixed: after each call of a sequence
    of [update_memory] calls on one [(project, element_type)] the item
    exists and has the lifecycle it had, or was due to be created with,
    before the first call. *)
Theorem lifecycle_never_changes p et (calls : list Calls.call) tb
    (n : nat) (item : option ProjectElementMemory.t) :
  Model.keyed tb →
  Calls.items_after p et calls tb !! n = Some item →
  ∃ m, item = Some m ∧ lifecycle m = Stored.lifecycle p et tb.
Proof.
  revert tb n. induction calls as [|c rest IH]; intros tb n Hk; [done|].
  destruct n as [|n]; simpl.
  - intros [= <-]. rewrite update_memory_lookup by done.
    eexists. split; [done|]. apply updated_lifecycle.
  - intros Hn. rewrite <- (update_memory_lifecycle p et
                             (Calls.current_count c) (Calls.timestamp c)
                             (Calls.covering_elements c) tb Hk).
    eapply IH; [by apply update_memory_keyed|done].
Qed.

Lemma lifecycle_never_changes_witness :
  let calls :=
    [ Calls.make 2 "t1" None; Calls.make 0 "t2" None; Calls.make 4 "t3" None ] in
  ∃ item, Calls.items_after "p" "Scaffold" calls ∅ !! 2%nat = Some item
          ∧ ∃ m, item = Some m
                 ∧ lifecycle m = Stored.lifecycle "p" "Scaffold" ∅.
Proof.
  intros calls.
  destruct (Calls.items_after "p" "Scaffold" calls ∅ !! 2%nat)
    as [item|] eqn:E; [|vm_compute in E; discriminate E].
  exists item. split; [reflexivity|].
  apply (lifecycle_never_changes "p" "Scaffold" calls ∅ 2 item).
  - apply keyed_empty.
  - exact E.
Defined.

(** X2.  [update_memory] writes one item only: every other key of the table
    holds after the call what it held before. *)
Theorem update_memory_other_keys p et c ts cov tb (k : string) :
  Model.keyed tb →
  k ≠ memory_key p et →
  (update_memory p et c ts cov tb).2 !! k = tb !! k.
Proof.
  intros Hk Hne. rewrite update_memory_table. unfold Model.save, updated.
  rewrite observe_memory_id, get_or_create_memory_id by done.
  rewrite lookup_insert_ne by done.
  unfold get_or_create_memory, Model.get, Model.save.
  destruct (tb !! memory_key p et); simpl; [done|].
  by rewrite lookup_insert_ne.
Qed.

Lemma update_memory_other_keys_witness :
  let tb := (update_memory "p" "wall" 2 "t1" None ∅).2 in
  (update_memory "p" "Column" 3 "t2" None tb).2 !! "p#wall" = tb !! "p#wall".
Proof.
  intros tb.
  apply (update_memory_other_keys "p" "Column" 3 "t2" None tb "p#wall").
  - apply update_memory_keyed, keyed_empty.
  - vm_compute. discriminate.
Defined.

(** X3.  Each call counts once: on an existing item, [update_memory] adds
    one to [times_detected] when the element is seen and one to
    [times_hidden] when it is not, and leaves the other counter alone; an
    unseen element keeps its [last_seen_at] and [max_count_seen]. *)
Theorem update_memory_counts_once p et c ts cov tb m :
  Model.keyed tb →
  Stored.lookup p et tb = Some m →
  ∃ m', Stored.lookup p et (update_memory p et c ts cov tb).2 = Some m'
        ∧ first_detected_at m' = first_detected_at m
        ∧ times_detected m' + times_hidden m'
          = times_detected m + times_hidden m + 1
        ∧ (0 < c → times_detected m' = times_detected m + 1
                   ∧ last_seen_at m' = ts)
        ∧ (c ≤ 0 → times_hidden m' = times_hidden m + 1
                   ∧ last_seen_at m' = last_seen_at m
                   ∧ max_count_seen m' = max_count_seen m).
Proof.
  intros Hk Hm. exists (updated p et c ts cov tb).
  split; [by apply update_memory_lookup|].
  unfold updated, get_or_create_memory, Model.get.
  unfold Stored.lookup in Hm. rewrite Hm. simpl.
  destruct (observe_fixed_fields c ts cov m) as (_ & _ & Hf & Hle & Hgt).
  split; [done|].
  destruct (Z.ltb_spec 0 c) as [Hpos|Hnon].
  - destruct (Hgt Hpos) as (? & ? & ?). repeat split; try lia; done.
  - destruct (Hle Hnon) as (? & ? & ? & ?). repeat split; try lia; done.
Qed.

Lemma update_memory_counts_once_witness :
  let tb := (update_memory "p" "wall" 2 "t1" None ∅).2 in
  ∃ m m', Stored.lookup "p" "wall" tb = Some m
    ∧ Stored.lookup "p" "wall" (update_memory "p" "wall" 0 "t2" None tb).2
      = Some m'
    ∧ times_detected m' + times_hidden m'
      = times_detected m + times_hidden m + 1.
Proof.
  intros tb.
  destruct (Stored.lookup "p" "wall" tb) as [m|] eqn:E;
    [|vm_compute in E; discriminate E].
  destruct (update_memory_counts_once "p" "wall" 0 "t2" None tb m)
    as (m' & Hm' & _ & Hsum & _).
  - apply update_memory_keyed, keyed_empty.
  - exact E.
  - exists m, m'. auto.
Defined.

(** X4.  An element stops contributing to progress exactly when it is of
    temporary lifecycle and not seen; the result then reports
    [effective_count = 0] and status [removed]. *)
Theorem contributes_unless_temporary_unseen p et c ts cov tb :
  let r := (update_memory p et c ts cov tb).1 in
  (UpdateResult.contributes_to_progress r = false
   ↔ c ≤ 0 ∧ Stored.lifecycle p et tb = TEMPORARY)
  ∧ (UpdateResult.contributes_to_progress r = false →
     UpdateResult.effective_count r = 0
     ∧ UpdateResult.current_status r = REMOVED).
Proof.
  destruct (update_memory_result p et c ts cov tb)
    as (_ & Hcount & Hstatus & _ & _ & _ & Hcontrib).
  simpl. rewrite Hcontrib, Hcount, Hstatus. unfold updated.
  rewrite observe_current_status, observe_current_count.
  rewrite get_or_create_lifecycle.
  rewrite bool_decide_eq_false.
  destruct (Z.ltb_spec 0 c) as [Hpos|Hnon].
  - intuition (lia || congruence).
  - destruct (Stored.lifecycle p et tb); simpl;
      intuition (lia || congruence).
Qed.

(** X5.  With non-negative visible counts the effective count stays between
    0 and [max_count_seen]: if the item, when it exists, satisfies
    [0 ≤ current_count ≤ max_count_seen], so does the item stored by
    [update_memory]. *)
Theorem current_count_within_max p et c ts cov tb :
  Model.keyed tb →
  0 ≤ c →
  (∀ m, Stored.lookup p et tb = Some m →
        0 ≤ current_count m ≤ max_count_seen m) →
  ∃ m', Stored.lookup p et (update_memory p et c ts cov tb).2 = Some m'
        ∧ 0 ≤ current_count m' ≤ max_count_seen m'.
Proof.
  intros Hk Hc Hinv. exists (updated p et c ts cov tb).
  split; [by apply update_memory_lookup|].
  unfold updated. rewrite observe_current_count, observe_max_count_seen.
  unfold get_or_create_memory, Model.get. unfold Stored.lookup in Hinv.
  destruct (tb !! memory_key p et) as [m|] eqn:E; simpl.
  - specialize (Hinv m eq_refl).
    destruct (Z.ltb_spec 0 c); [lia|]. destruct (lifecycle m); lia.
  - destruct (Z.ltb_spec 0 c); [lia|].
    destruct (ElementLifecycle.classify et); lia.
Qed.

Lemma current_count_within_max_witness :
  ∃ m', Stored.lookup "p" "fence" (update_memory "p" "fence" 0 "t1" None ∅).2
        = Some m'
        ∧ 0 ≤ current_count m' ≤ max_count_seen m'.
Proof.
  apply (current_count_within_max "p" "fence" 0 "t1" None ∅).
  - apply keyed_empty.
  - lia.
  - intros m H. vm_compute in H. discriminate H.
Defined.

(** X6.  The element type is matched without regard to case: two spellings
    with the same lower-case form address the same item, so [update_memory]
    leaves the same table and reports the same counts and status for
    both. *)
Theorem update_memory_ignores_case p et et' c ts cov tb :
  Str.lower et = Str.lower et' →
  let out := update_memory p et c ts cov tb in
  let out' := update_memory p et' c ts cov tb in
  out.2 = out'.2
  ∧ UpdateResult.effective_count out.1 = UpdateResult.effective_count out'.1
  ∧ UpdateResult.current_status out.1 = UpdateResult.current_status out'.1
  ∧ UpdateResult.lifecycle out.1 = UpdateResult.lifecycle out'.1
  ∧ UpdateResult.contributes_to_progress out.1
    = UpdateResult.contributes_to_progress out'.1.
Proof.
  intros Hl.
  assert (Hg : get_or_create_memory p et c ts tb
               = get_or_create_memory p et' c ts tb).
  { unfold get_or_create_memory, memory_key, ElementLifecycle.classify.
    by rewrite Hl. }
  unfold update_memory. rewrite Hg.
  by destruct (get_or_create_memory p et' c ts tb).
Qed.

Lemma update_memory_ignores_case_witness :
  (update_memory "p" "COLUMN" 3 "t1" None ∅).2
  = (update_memory "p" "Column" 3 "t1" None ∅).2.
Proof.
  apply (update_memory_ignores_case "p" "COLUMN" "Column" 3 "t1" None ∅).
  reflexivity.
Defined.

End memory_item_properties.

(** * Properties of the table operations *)

Section table_properties.

Import ProjectElementMemory ElementMemoryService.

Implicit Types (tb : Table) (m : ProjectElementMemory.t).
Implicit Types (p : string).

(** The items the index query returns: those of the project. *)
Lemma query_spec p tb m :
  m ∈ Model.query p tb ↔ project_id m = p ∧ ∃ k, tb !! k = Some m.
Proof.
  unfold Model.query. rewrite merge_sort_Permutation, list_elem_of_filter.
  rewrite list_elem_of_fmap. split.
  - intros [Hp ([k m'] & -> & Hin%elem_of_map_to_list)]. eauto.
  - intros [Hp [k Hk]]. split; [done|].
    exists (k, m). split; [done|]. by apply elem_of_map_to_list.
Qed.

Lemma dict_set_keys {V} (k k' : string) (v : V) (d : list (string * V)) :
  k' ∈ (Dict.set k v d).*1 ↔ k' = k ∨ k' ∈ d.*1.
Proof.
  induction d as [|[k0 v0] d IH]; simpl.
  - rewrite list_elem_of_singleton. split; [auto|].
    intros [?|?%elem_of_nil]; done.
  - case_decide; subst; simpl; rewrite !elem_of_cons; [tauto|].
    rewrite IH. tauto.
Qed.

Lemma dict_set_NoDup {V} (k : string) (v : V) (d : list (string * V)) :
  NoDup d.*1 → NoDup (Dict.set k v d).*1.
Proof.
  induction d as [|[k0 v0] d IH]; simpl.
  - intros _. apply NoDup_singleton.
  - rewrite NoDup_cons. intros [Hnot Hnd].
    case_decide; subst; simpl; apply NoDup_cons; [done|].
    split; [|by apply IH].
    rewrite dict_set_keys. intros [?|?]; done.
Qed.

Lemma memory_dict_keys (l : list ProjectElementMemory.t)
    (d : list (string * ProjectElementMemory.t)) (k : string) :
  k ∈ Dict.keys (foldl (λ result m, Dict.set (element_type m) m result) d l)
  ↔ k ∈ Dict.keys d ∨ k ∈ element_type <$> l.
Proof.
  revert d. induction l as [|m l IH]; intros d; simpl.
  - split; [auto|]. intros [?|?%elem_of_nil]; done.
  - rewrite IH. unfold Dict.keys. rewrite dict_set_keys, elem_of_cons. tauto.
Qed.

Lemma memory_dict_NoDup (l : list ProjectElementMemory.t)
    (d : list (string * ProjectElementMemory.t)) :
  NoDup (Dict.keys d) →
  NoDup (Dict.keys (foldl (λ result m, Dict.set (element_type m) m result) d l)).
Proof.
  revert d. induction l as [|m l IH]; intros d Hd; simpl; [done|].
  apply IH. by apply dict_set_NoDup.
Qed.

Lemma get_project_memory_keys_spec p tb (k : string) :
  NoDup (Dict.keys (get_project_memory p tb))
  ∧ (k ∈ Dict.keys (get_project_memory p tb)
     ↔ ∃ key m, tb !! key = Some m ∧ project_id m = p ∧ element_type m = k).
Proof.
  unfold get_project_memory. split.
  - apply memory_dict_NoDup, NoDup_nil_2.
  - rewrite memory_dict_keys, list_elem_of_fmap. split.
    + intros [?%elem_of_nil|(m & -> & Hm)]; [done|].
      apply query_spec in Hm as [Hp [key Hk]]. eauto.
    + intros (key & m & Hk & Hp & <-). right. exists m.
      split; [done|]. apply query_spec. eauto.
Qed.

(** X7.  [get_project_memory] lists exactly the element types that have an
    item of the project in the table, each once. *)
Theorem get_project_memory_keys p tb (k : string) :
  NoDup (Dict.keys (get_project_memory p tb))
  ∧ (k ∈ Dict.keys (get_project_memory p tb)
     ↔ ∃ key m, tb !! key = Some m ∧ project_id m = p ∧ element_type m = k).
Proof.
  unfold get_project_memory. split.
  - apply memory_dict_NoDup, NoDup_nil_2.
  - rewrite memory_dict_keys, list_elem_of_fmap. split.
    + intros [Hin|(m & -> & Hm)]; [by apply elem_of_nil in Hin|].
      apply query_spec in Hm as [Hp [key Hk]]. eauto.
    + intros (key & m & Hk & Hp & <-). right. exists m.
      split; [done|]. apply query_spec. eauto.
Qed.

(** The loop of [clear_project_memory]. *)
Lemma clear_loop_lookup (l : list ProjectElementMemory.t) (cnt : Z) tb
    (k : string) :
  (foldl (λ '(count, tb) _memory, (count + 1, Model.delete _memory tb))
         (cnt, tb) l).2 !! k
  = if decide (k ∈ memory_id <$> l) then None else tb !! k.
Proof.
  revert cnt tb. induction l as [|m l IH]; intros cnt tb.
  - destruct (decide (k ∈ memory_id <$> [])) as [H|H];
      [by apply elem_of_nil in H|done].
  - cbn [foldl]. rewrite IH, fmap_cons. unfold Model.delete.
    destruct (decide (k ∈ memory_id <$> l)) as [Hl|Hl];
      destruct (decide (k ∈ memory_id m :: (memory_id <$> l))) as [Hc|Hc];
      try done.
    + exfalso. apply Hc. by right.
    + apply elem_of_cons in Hc as [->|?]; [|done]. apply lookup_delete_eq.
    + apply lookup_delete_ne. intros <-. apply Hc. by left.
Qed.

Lemma clear_loop_count (l : list ProjectElementMemory.t) (cnt : Z) tb :
  NoDup (memory_id <$> l) →
  (∀ m, m ∈ l → is_Some (tb !! memory_id m)) →
  let out :=
    foldl (λ '(count, tb) _memory, (count + 1, Model.delete _memory tb))
          (cnt, tb) l in
  out.1 = cnt + Z.of_nat (length l)
  ∧ Z.of_nat (size out.2) + Z.of_nat (length l) = Z.of_nat (size tb).
Proof.
  revert cnt tb. induction l as [|m l IH]; intros cnt tb Hnd Hin.
  - simpl. lia.
  - rewrite fmap_cons in Hnd. apply NoDup_cons in Hnd as [Hnot Hnd].
    destruct (IH (cnt + 1) (Model.delete m tb) Hnd) as [Hc Hs].
    + intros m' Hm'. unfold Model.delete. rewrite lookup_delete_ne.
      * apply Hin. by right.
      * intros Heq. apply Hnot. rewrite Heq. by apply list_elem_of_fmap_2.
    + simpl in Hc, Hs. unfold Model.delete in Hs.
      destruct (Hin m) as [x Hx]; [by left|].
      rewrite map_size_delete_Some in Hs by eauto.
      assert (size tb ≠ 0%nat).
      { intros H0. apply map_size_empty_iff in H0. subst.
        by rewrite lookup_empty in Hx. }
      cbn [foldl length]. unfold Model.delete in *.
      split; [rewrite Hc|]; lia.
Qed.

Lemma NoDup_fmap_filter {A B} (f : A → B) (P : A → Prop)
    `{!∀ x, Decision (P x)} (l : list A) :
  NoDup (f <$> l) → NoDup (f <$> filter P l).
Proof.
  induction l as [|x l IH]; [done|].
  rewrite fmap_cons, NoDup_cons. intros [Hnot Hnd].
  rewrite filter_cons. case_decide; [|by apply IH].
  rewrite fmap_cons. apply NoDup_cons. split; [|by apply IH].
  rewrite list_elem_of_fmap. intros (y & Hy & Hin%list_elem_of_filter).
  apply Hnot. rewrite Hy. apply list_elem_of_fmap_2. tauto.
Qed.

(** In a keyed table the items of a query have distinct hash keys. *)
Lemma query_NoDup p tb :
  Model.keyed tb → NoDup (memory_id <$> Model.query p tb).
Proof.
  intros Hk. unfold Model.query. rewrite merge_sort_Permutation.
  apply NoDup_fmap_filter.
  assert (E : memory_id <$> (map_to_list tb).*2 = (map_to_list tb).*1).
  { rewrite <- list_fmap_compose. apply list_fmap_ext.
    intros i [k m] Hi. simpl. apply Hk, elem_of_map_to_list.
    apply list_elem_of_lookup. eauto. }
  rewrite E. apply NoDup_fst_map_to_list.
Qed.

(** X8.  [clear_project_memory] removes every item of the project and
    nothing else, and the number it returns is the number of items the
    table lost; afterwards the project has no memory. *)
Theorem clear_project_memory_spec p tb :
  Model.keyed tb →
  let out := clear_project_memory p tb in
  (∀ k m, out.2 !! k = Some m ↔ tb !! k = Some m ∧ project_id m ≠ p)
  ∧ out.1 + Z.of_nat (size out.2) = Z.of_nat (size tb)
  ∧ get_project_memory p out.2 = [].
Proof.
  intros Hk out.
  assert (Hlook : ∀ k m,
            out.2 !! k = Some m ↔ tb !! k = Some m ∧ project_id m ≠ p).
  { intros k m. subst out. unfold clear_project_memory.
    rewrite clear_loop_lookup. case_decide as Hin.
    - apply list_elem_of_fmap in Hin as (m' & -> & Hm').
      apply query_spec in Hm' as [Hp [k' Hk']].
      assert (k' = memory_id m') as -> by (symmetry; by apply Hk).
      split; [done|]. intros [Hm Hne]. congruence.
    - split; [|tauto]. intros Hm. split; [done|]. intros Hp.
      apply Hin. rewrite <- (Hk k m Hm).
      apply list_elem_of_fmap_2, query_spec. eauto. }
  split; [exact Hlook|]. split.
  - subst out. unfold clear_project_memory.
    destruct (clear_loop_count (Model.query p tb) 0 tb) as [Hc Hs].
    + by apply query_NoDup.
    + intros m [Hp [k Hm]]%query_spec. rewrite (Hk k m Hm). eauto.
    + simpl in Hc, Hs. rewrite Hc. lia.
  - unfold get_project_memory.
    assert (Hq : Model.query p out.2 = []).
    { destruct (Model.query p out.2) as [|m l] eqn:E; [done|].
      assert (Hm : m ∈ Model.query p out.2) by (rewrite E; left).
      apply query_spec in Hm as [Hp [k Hm]].
      apply Hlook in Hm as [_ Hne]. done. }
    by rewrite Hq.
Qed.

Lemma clear_project_memory_spec_witness :
  let tb :=
    (update_memory "q" "wall" 1 "t3" None
       (update_memory "p" "beam" 2 "t2" None
          (update_memory "p" "wall" 3 "t1" None ∅).2).2).2 in
  let out := clear_project_memory "p" tb in
  out.1 = 2 ∧ size out.2 = 1%nat
  ∧ out.1 + Z.of_nat (size out.2) = Z.of_nat (size tb)
  ∧ get_project_memory "p" out.2 = [].
Proof.
  intros tb out.
  split; [vm_compute; reflexivity|]. split; [vm_compute; reflexivity|].
  apply (clear_project_memory_spec "p" tb).
  repeat apply update_memory_keyed. apply keyed_empty.
Defined.

End table_properties.

(** * Further properties of [process_analysis_with_memory] *)

Section analysis_properties.

Import ElementMemoryService.

Lemma dict_get_set {V} (k k' : string) (v : V) (d : list (string * V)) :
  Dict.get k' (Dict.set k v d)
  = if decide (k = k') then Some v else Dict.get k' d.
Proof.
  induction d as [|[k0 v0] d IH]; simpl.
  - by case_decide.
  - destruct (decide (k0 = k)) as [->|Hne]; simpl.
    + by destruct (decide (k = k')).
    + rewrite IH. destruct (decide (k0 = k')) as [->|?]; [|done].
      by rewrite decide_False by done.
Qed.

Lemma dict_get_elem {V} (k : string) (v : V) (d : list (string * V)) :
  Dict.get k d = Some v → (k, v) ∈ d.
Proof.
  induction d as [|[k0 v0] d IH]; simpl; [done|].
  case_decide; subst.
  - intros [= ->]. by left.
  - intros Hget. right. by apply IH.
Qed.

(** The first loop, one detection at a time. *)
Lemma group_detected_app l1 l2 dbt cov :
  group_detected (l1 ++ l2) dbt cov
  = group_detected l2 (group_detected l1 dbt cov).1
                      (group_detected l1 dbt cov).2.
Proof.
  revert dbt cov. induction l1 as [|e l1 IH]; intros dbt cov; simpl.
  - by destruct (group_detected l2 dbt cov).
  - apply IH.
Qed.

Lemma group_detected_get_absent elems dbt cov (k : string) :
  (∀ e, e ∈ elems → detection_key e ≠ k) →
  Dict.get k (group_detected elems dbt cov).1 = Dict.get k dbt.
Proof.
  revert dbt cov. induction elems as [|e rest IH]; intros dbt cov Habs;
    simpl; [done|].
  rewrite IH by (intros e' He'; apply Habs; by right).
  rewrite dict_get_set. apply decide_False, Habs. by left.
Qed.

Lemma group_detected_keys elems dbt cov (k : string) :
  k ∈ (group_detected elems dbt cov).1.*1
  ↔ k ∈ dbt.*1 ∨ ∃ e, e ∈ elems ∧ detection_key e = k.
Proof.
  revert dbt cov. induction elems as [|e rest IH]; intros dbt cov; simpl.
  - split; [auto|]. intros [?|(e & ?%elem_of_nil & _)]; done.
  - rewrite IH, dict_set_keys. fold (detection_key e). split.
    + intros [[-> |?]|(e' & He' & <-)]; eauto.
      * right. exists e. split; [by left|done].
      * right. exists e'. split; [by right|done].
    + intros [?|(e' & [->|He']%elem_of_cons & <-)]; eauto.
Qed.

Lemma group_detected_NoDup elems dbt cov :
  NoDup dbt.*1 → NoDup (group_detected elems dbt cov).1.*1.
Proof.
  revert dbt cov. induction elems as [|e rest IH]; intros dbt cov Hnd; simpl;
    [done|].
  apply IH. by apply dict_set_NoDup.
Qed.

Lemma group_detected_covering elems dbt cov (t : string) :
  t ∈ (group_detected elems dbt cov).2
  ↔ t ∈ cov ∨ (t ∈ covering_candidates
               ∧ ∃ e, e ∈ elems ∧ detection_key e = t).
Proof.
  revert dbt cov. induction elems as [|e rest IH]; intros dbt cov; simpl.
  - split; [auto|]. intros [?|(_ & e & ?%elem_of_nil & _)]; done.
  - rewrite IH. fold (detection_key e). unfold Str.mem.
    case_bool_decide as Hc.
    + rewrite elem_of_app, list_elem_of_singleton. split.
      * intros [[?| ->]|(Ht & e' & He' & <-)]; eauto.
        -- right. split; [done|]. exists e. split; [by left|done].
        -- right. split; [done|]. exists e'. split; [by right|done].
      * intros [?|(Ht & e' & [->|He']%elem_of_cons & <-)]; eauto.
    + split.
      * intros [?|(Ht & e' & He' & <-)]; eauto.
        right. split; [done|]. exists e'. split; [by right|done].
      * intros [?|(Ht & e' & [->|He']%elem_of_cons & <-)]; eauto. done.
Qed.

(** The second loop: what it appends. *)
Lemma update_detected_entries p ts cov items adj upd tb (k : string) (c : Z) :
  (k, c) ∈ items →
  let out := update_detected p ts cov items adj upd tb in
  (∃ a, a ∈ out.1.1 ∧ Elem.element_type a = Some k
        ∧ Elem.count_visible a = Some c)
  ∧ (∃ u, u ∈ out.1.2 ∧ UpdateResult.element_type u = k
          ∧ UpdateResult.current_count_visible u = c).
Proof.
  revert adj upd tb. induction items as [|[k' c'] rest IH]; intros adj upd tb;
    [by intros ?%elem_of_nil|].
  intros Hin. simpl.
  pose proof (update_memory_result p k' c' ts
                (if decide (c' = 0) then Some cov else None) tb)
    as (_ & _ & _ & _ & Hc & Het & _).
  destruct (update_memory p k' c' ts _ tb) as [u tb']. simpl in Het, Hc.
  apply elem_of_cons in Hin as [[= -> ->]|Hin]; [|by apply IH].
  match goal with
  | |- context [update_detected p ts cov rest ?adj' ?upd' tb'] =>
      destruct (update_detected_keeps p ts cov rest adj' upd' tb') as [Ha Hu]
  end.
  split.
  - eexists. split; [apply Ha, elem_of_app; right; left|done].
  - exists u. split; [apply Hu, elem_of_app; right; left|done].
Qed.

Lemma update_detected_types p ts cov items adj upd tb :
  UpdateResult.element_type <$> (update_detected p ts cov items adj upd tb).1.2
  = ((UpdateResult.element_type <$> upd) ++ items.*1)%list.
Proof.
  revert adj upd tb. induction items as [|[k c] rest IH]; intros adj upd tb;
    simpl; [by rewrite app_nil_r|].
  pose proof (update_memory_result p k c ts
                (if decide (c = 0) then Some cov else None) tb)
    as (_ & _ & _ & _ & _ & Het & _).
  destruct (update_memory p k c ts _ tb) as [u tb']. simpl in Het.
  rewrite IH, fmap_app, <- app_assoc. simpl. by rewrite Het.
Qed.

Lemma update_undetected_types p ts cov dbt keys adj upd tb :
  UpdateResult.element_type
    <$> (update_undetected p ts cov dbt keys adj upd tb).1.2
  = ((UpdateResult.element_type <$> upd)
     ++ filter (λ k, k ∉ dbt.*1) keys)%list.
Proof.
  revert adj upd tb. induction keys as [|k rest IH]; intros adj upd tb;
    simpl; [by rewrite app_nil_r|].
  rewrite filter_cons. unfold Dict.contains. case_bool_decide as Hin.
  - rewrite decide_False by tauto. apply IH.
  - rewrite decide_True by done.
    pose proof (update_memory_result p k 0 ts (Some cov) tb)
      as (_ & _ & _ & _ & _ & Het & _).
    destruct (update_memory p k 0 ts (Some cov) tb) as [u tb']. simpl in Het.
    rewrite IH, fmap_app, <- app_assoc. simpl. by rewrite Het.
Qed.

(** X10.  Counts of one type are not added up: when a type is detected
    several times in one analysis, [update_memory] is called for it with the
    visible count of its last detection (1 when that detection has none). *)
Theorem last_detection_count_wins
    now p (front back : list Elem.t) (e : Elem.t) ts tb :
  (∀ e', e' ∈ back → detection_key e' ≠ detection_key e) →
  let r := (process_analysis_with_memory now p (front ++ e :: back) ts tb).1 in
  ∃ u, u ∈ AnalysisResult.memory_updates r
       ∧ UpdateResult.element_type u = detection_key e
       ∧ UpdateResult.current_count_visible u
         = default 1 (Elem.count_visible e).
Proof.
  intros Hlast. unfold process_analysis_with_memory.
  assert (Hget : Dict.get (detection_key e)
                   (group_detected (front ++ e :: back) [] []).1
                 = Some (default 1 (Elem.count_visible e))).
  { rewrite group_detected_app. simpl.
    rewrite group_detected_get_absent by done.
    rewrite dict_get_set. by apply decide_True. }
  apply dict_get_elem in Hget.
  destruct (group_detected (front ++ e :: back) [] []) as [dbt cov].
  simpl in Hget.
  pose proof (update_detected_entries p (default now ts) cov dbt [] [] tb
                _ _ Hget) as [_ (u & Hu & Ht & Hc)].
  destruct (update_detected p (default now ts) cov dbt [] [] tb)
    as [[adj upd] tb1]. simpl in Hu.
  pose proof (update_undetected_keeps p (default now ts) cov dbt
                (Dict.keys (get_project_memory p tb)) adj upd tb1) as [_ Ku].
  destruct (update_undetected p (default now ts) cov dbt _ adj upd tb1)
    as [[adj' upd'] tb2]. simpl in *.
  exists u. auto.
Qed.

Lemma last_detection_count_wins_witness :
  let wall n := Elem.make (Some "wall") (Some n) None None None in
  let r := (process_analysis_with_memory "now" "p" [wall 2; wall 5] None ∅).1 in
  ∃ u, u ∈ AnalysisResult.memory_updates r
       ∧ UpdateResult.element_type u = detection_key (wall 5)
       ∧ UpdateResult.current_count_visible u
         = default 1 (Elem.count_visible (wall 5)).
Proof.
  intros wall.
  apply (last_detection_count_wins "now" "p" [wall 2] [] (wall 5) None ∅).
  intros e' He'. by apply elem_of_nil in He'.
Defined.

(** X11.  Each type is updated once per analysis: the update results of
    [process_analysis_with_memory] carry pairwise distinct element types,
    and a type has an update exactly when it is detected in this analysis or
    has an item of the project in the table. *)
Theorem one_update_per_type now p (elems : list Elem.t) ts tb :
  let r := (process_analysis_with_memory now p elems ts tb).1 in
  let types := UpdateResult.element_type <$> AnalysisResult.memory_updates r in
  NoDup types
  ∧ ∀ k, k ∈ types
         ↔ (∃ e, e ∈ elems ∧ detection_key e = k)
           ∨ (∃ key m, tb !! key = Some m
                       ∧ ProjectElementMemory.project_id m = p
                       ∧ ProjectElementMemory.element_type m = k).
Proof.
  unfold process_analysis_with_memory.
  pose proof (group_detected_NoDup elems [] [] (NoDup_nil_2)) as Hnd.
  pose proof (group_detected_keys elems [] []) as Hkeys.
  destruct (group_detected elems [] []) as [dbt cov]. simpl in Hnd, Hkeys.
  pose proof (update_detected_types p (default now ts) cov dbt [] [] tb) as Ht1.
  destruct (update_detected p (default now ts) cov dbt [] [] tb)
    as [[adj upd] tb1]. simpl in Ht1.
  pose proof (update_undetected_types p (default now ts) cov dbt
                (Dict.keys (get_project_memory p tb)) adj upd tb1) as Ht2.
  destruct (update_undetected p (default now ts) cov dbt _ adj upd tb1)
    as [[adj' upd'] tb2]. simpl in *.
  rewrite Ht2, Ht1.
  destruct (get_project_memory_keys_spec p tb "") as [Hmem _].
  split.
  - apply NoDup_app. split; [done|]. split.
    + intros k Hk [Hnot _]%list_elem_of_filter. done.
    + by apply NoDup_filter.
  - intros k. rewrite elem_of_app, list_elem_of_filter.
    destruct (get_project_memory_keys_spec p tb k) as [_ Hm]. rewrite Hm.
    split.
    + intros [Hin|[_ ?]]; [left|by right].
      apply Hkeys in Hin as [?%elem_of_nil|?]; done.
    + intros [He|Hitem].
      * left. apply Hkeys. by right.
      * destruct (decide (k ∈ dbt.*1)); [by left|by right].
Qed.

(** X12.  The covering hint is made of the covering types detected in this
    analysis: a type is in [covering_elements_detected] exactly when it is
    one of wall, covering, slab, roof, panel and some detection has it. *)
Theorem covering_elements_are_detected
    now p (elems : list Elem.t) ts tb (t : string) :
  let r := (process_analysis_with_memory now p elems ts tb).1 in
  t ∈ AnalysisResult.covering_elements_detected r
  ↔ t ∈ covering_candidates ∧ ∃ e, e ∈ elems ∧ detection_key e = t.
Proof.
  unfold process_analysis_with_memory.
  pose proof (group_detected_covering elems [] [] t) as Hcov.
  destruct (group_detected elems [] []) as [dbt cov]. simpl in Hcov.
  destruct (update_detected p (default now ts) cov dbt [] [] tb)
    as [[adj upd] tb1].
  destruct (update_undetected p (default now ts) cov dbt _ adj upd tb1)
    as [[adj' upd'] tb2]. simpl.
  rewrite Hcov. split; [|auto]. intros [?%elem_of_nil|?]; done.
Qed.

End analysis_properties.

Section adjusted_properties.

Import ElementMemoryService.

(** What the second loop appends: one element per item, with its count. *)
Lemma update_detected_adjusted p ts cov items adj upd tb (a : Elem.t) :
  a ∈ (update_detected p ts cov items adj upd tb).1.1 →
  a ∈ adj ∨ ∃ k c, (k, c) ∈ items ∧ Elem.element_type a = Some k
                   ∧ Elem.count_visible a = Some c.
Proof.
  revert adj upd tb. induction items as [|[k c] rest IH]; intros adj upd tb;
    simpl; [auto|].
  destruct (update_memory p k c ts _ tb) as [u tb'].
  intros [Hin|(k' & c' & Hin & ?)]%IH.
  - apply elem_of_app in Hin as [?| ->%list_elem_of_singleton]; [auto|].
    right. exists k, c. split; [left|done].
  - right. exists k', c'. split; [by right|done].
Qed.

(** What the third loop appends: hidden elements only. *)
Lemma update_undetected_adjusted p ts cov dbt keys adj upd tb (a : Elem.t) :
  a ∈ (update_undetected p ts cov dbt keys adj upd tb).1.1 →
  a ∈ adj ∨ (Elem.count_visible a = Some 0
             ∧ Elem.status a = Some "hidden"
             ∧ Elem.contributes_to_progress a = Some true
             ∧ ∃ k, k ∈ keys ∧ (k ∉ dbt.*1) ∧ Elem.element_type a = Some k).
Proof.
  revert adj upd tb. induction keys as [|k rest IH]; intros adj upd tb;
    simpl; [auto|].
  unfold Dict.contains. case_bool_decide as Hk.
  - intros [?|(? & ? & ? & k' & ? & ? & ?)]%IH; [auto|].
    right. repeat split; try done. exists k'. split; [by right|done].
  - pose proof (update_memory_result p k 0 ts (Some cov) tb)
      as (_ & _ & Hst & _ & _ & _ & Hcontrib).
    unfold updated in Hst, Hcontrib.
    rewrite observe_current_status in Hst, Hcontrib. simpl in Hst, Hcontrib.
    destruct (update_memory p k 0 ts (Some cov) tb) as [u tb'].
    simpl in Hst, Hcontrib.
    intros [Hin|(? & ? & ? & k' & ? & ? & ?)]%IH.
    + destruct (UpdateResult.contributes_to_progress u) eqn:Hc; [|auto].
      apply elem_of_app in Hin as [?| ->%list_elem_of_singleton]; [auto|].
      right. simpl. split; [done|]. split; [|split; [done|]].
      * rewrite Hst. clear Hst.
        by destruct (ProjectElementMemory.lifecycle _).
      * exists k. split; [left|done].
    + right. repeat split; try done. exists k'. split; [by right|done].
Qed.

(** X13.  An adjusted element of a type that was not detected in this
    analysis is a hidden one: it comes back with [count_visible = 0], status
    ["hidden"] and [contributes_to_progress = true]; every other adjusted
    element carries the type of a detection. *)
Theorem undetected_adjusted_are_hidden
    now p (elems : list Elem.t) ts tb (a : Elem.t) :
  a ∈ AnalysisResult.adjusted_elements
        (process_analysis_with_memory now p elems ts tb).1 →
  (∃ e, e ∈ elems ∧ Elem.element_type a = Some (detection_key e))
  ∨ (Elem.count_visible a = Some 0
     ∧ Elem.status a = Some "hidden"
     ∧ Elem.contributes_to_progress a = Some true
     ∧ ∀ e, e ∈ elems → Elem.element_type a ≠ Some (detection_key e)).
Proof.
  unfold process_analysis_with_memory.
  pose proof (group_detected_keys elems [] []) as Hkeys.
  destruct (group_detected elems [] []) as [dbt cov]. simpl in Hkeys.
  pose proof (update_detected_adjusted p (default now ts) cov dbt [] [] tb a)
    as H1.
  destruct (update_detected p (default now ts) cov dbt [] [] tb)
    as [[adj upd] tb1]. simpl in H1.
  pose proof (update_undetected_adjusted p (default now ts) cov dbt
                (Dict.keys (get_project_memory p tb)) adj upd tb1 a) as H2.
  destruct (update_undetected p (default now ts) cov dbt _ adj upd tb1)
    as [[adj' upd'] tb2]. simpl in *.
  intros [Hin|(Hc & Hs & Hp & k & _ & Hout & Hk)]%H2.
  - left. apply H1 in Hin as [?%elem_of_nil|(k & c & Hkc & Ht & _)]; [done|].
    assert (Hk : k ∈ dbt.*1) by (by apply (list_elem_of_fmap_2 fst) in Hkc).
    apply Hkeys in Hk as [?%elem_of_nil|(e & He & <-)]; [done|]. eauto.
  - right. repeat split; try done.
    intros e He Heq. apply Hout, Hkeys. right. exists e. split; [done|].
    congruence.
Qed.

Lemma undetected_adjusted_are_hidden_witness :
  let tb := (update_memory "p" "column" 4 "t1" None ∅).2 in
  let wall := Elem.make (Some "wall") (Some 1) None None None in
  let hidden :=
    Elem.make (Some "column") (Some 0) (Some 4) (Some "hidden") (Some true) in
  hidden ∈ AnalysisResult.adjusted_elements
             (process_analysis_with_memory "now" "p" [wall] None tb).1
  ∧ ((∃ e, e ∈ [wall] ∧ Elem.element_type hidden = Some (detection_key e))
     ∨ (Elem.count_visible hidden = Some 0
        ∧ Elem.status hidden = Some "hidden"
        ∧ Elem.contributes_to_progress hidden = Some true
        ∧ ∀ e, e ∈ [wall] →
               Elem.element_type hidden ≠ Some (detection_key e))).
Proof.
  intros tb wall hidden.
  assert (H : hidden ∈ AnalysisResult.adjusted_elements
                (process_analysis_with_memory "now" "p" [wall] None tb).1).
  { vm_compute. right. left. }
  split; [exact H|].
  apply (undetected_adjusted_are_hidden "now" "p" [wall] None tb hidden H).
Defined.

(** The adjusted list is empty only when nothing was detected. *)
Lemma adjusted_nil_detected_nil now p (elems : list Elem.t) ts tb :
  AnalysisResult.adjusted_elements
    (process_analysis_with_memory now p elems ts tb).1 = [] →
  elems = [].
Proof.
  destruct elems as [|e rest]; [done|]. intros Hnil.
  assert (He : e ∈ e :: rest) by left.
  pose proof (group_detected_files (e :: rest) [] [] e He) as Hkey.
  unfold process_analysis_with_memory in Hnil.
  destruct (group_detected (e :: rest) [] []) as [dbt cov]. simpl in Hkey.
  pose proof (update_detected_processes p (default now ts) cov dbt [] [] tb
                _ Hkey) as [(a & Ha & _) _].
  destruct (update_detected p (default now ts) cov dbt [] [] tb)
    as [[adj upd] tb1]. simpl in Ha.
  pose proof (update_undetected_keeps p (default now ts) cov dbt
                (Dict.keys (get_project_memory p tb)) adj upd tb1) as [Ka _].
  destruct (update_undetected p (default now ts) cov dbt _ adj upd tb1)
    as [[adj' upd'] tb2]. simpl in *.
  apply Ka in Ha. rewrite Hnil in Ha. by apply elem_of_nil in Ha.
Qed.

(** X14.  In the analysis pipeline the progress against a BIM model is
    always computed from the adjusted elements, never from the raw
    detections: the fallback of [calculate_progress_metrics] to
    [detected_elements] can only fire when both lists are empty. *)
Theorem pipeline_progress_uses_adjusted
    now p (detected expected : list Elem.t) tb :
  expected ≠ [] →
  (BIMAnalysisService.progress_with_memory now p detected (Some expected) tb).1
  = ProgressCalculator.compute_progress_report
      (AnalysisResult.adjusted_elements
         (process_analysis_with_memory now p detected None tb).1)
      expected.
Proof.
  intros Hexp. unfold BIMAnalysisService.progress_with_memory.
  pose proof (adjusted_nil_detected_nil now p detected None tb) as Hnil.
  destruct (process_analysis_with_memory now p detected None tb) as [r tb'].
  simpl in *. rewrite calculate_progress_metrics_with_bim by done.
  f_equal. unfold ProgressCalculator.elements_to_use.
  destruct (AnalysisResult.adjusted_elements r); [|done]. by apply Hnil.
Qed.

Lemma pipeline_progress_uses_adjusted_witness :
  let tb := (update_memory "p" "column" 4 "t1" None ∅).2 in
  let column := Elem.make (Some "column") None None None None in
  ProgressReport.total_built
    (BIMAnalysisService.progress_with_memory "now" "p" []
       (Some [column; column; column; column]) tb).1 = Some 4.
Proof.
  intros tb column.
  rewrite (pipeline_progress_uses_adjusted "now" "p" []
             [column; column; column; column] tb) by discriminate.
  vm_compute. reflexivity.
Defined.

End adjusted_properties.

(** * Further properties of [ProgressCalculator] *)

Section counter_facts.

Lemma dict_get_None {V} (k : string) (d : list (string * V)) :
  Dict.get k d = None ↔ k ∉ d.*1.
Proof.
  induction d as [|[k0 v0] d IH]; simpl.
  - split; [intros _ ?%elem_of_nil|]; done.
  - rewrite not_elem_of_cons. case_decide; subst.
    + split; [done|]. intros [Hne _]. done.
    + rewrite IH. split; [intros ?; split; [congruence|done]|].
      intros [_ ?]; done.
Qed.

Lemma dict_set_fresh {V} (k : string) (v : V) (d : list (string * V)) :
  k ∉ d.*1 → Dict.set k v d = (d ++ [(k, v)])%list.
Proof.
  induction d as [|[k0 v0] d IH]; simpl; [done|].
  rewrite not_elem_of_cons. intros [Hne Hout].
  rewrite decide_False by done. by rewrite IH.
Qed.

Lemma total_cons (k : string) (v : Z) (d : list (string * Z)) :
  Progress.total ((k, v) :: d) = v + Progress.total d.
Proof. done. Qed.

Lemma dict_set_total (k : string) (v : Z) (d : list (string * Z)) :
  Progress.total (Dict.set k v d)
  = Progress.total d + v - default 0 (Dict.get k d).
Proof.
  induction d as [|[k0 v0] d IH]; simpl.
  - unfold Progress.total. simpl. lia.
  - case_decide; rewrite !total_cons; [simpl; lia|]. rewrite IH. lia.
Qed.

Lemma counter_add_total (k : string) (n : Z) (d : list (string * Z)) :
  Progress.total (Counter.add k n d) = Progress.total d + n.
Proof. unfold Counter.add. rewrite dict_set_total. lia. Qed.

Lemma counter_add_get (k k' : string) (n : Z) (d : list (string * Z)) :
  default 0 (Dict.get k' (Counter.add k n d))
  = default 0 (Dict.get k' d) + (if decide (k = k') then n else 0).
Proof.
  unfold Counter.add. rewrite dict_get_set.
  case_decide; subst; simpl; lia.
Qed.

Section grouping.
Context {A : Type} (f : A → string) (w : A → Z).

Lemma group_total (l : list A) (acc : list (string * Z)) :
  Progress.total (foldl (λ acc e, Counter.add (f e) (w e) acc) acc l)
  = Progress.total acc + foldr Z.add 0 (w <$> l).
Proof.
  revert acc. induction l as [|e l IH]; intros acc; [simpl; lia|].
  cbn [foldl]. rewrite IH, counter_add_total, fmap_cons. cbn [foldr]. lia.
Qed.

Lemma group_get (l : list A) (acc : list (string * Z)) (k : string) :
  default 0 (Dict.get k (foldl (λ acc e, Counter.add (f e) (w e) acc) acc l))
  = default 0 (Dict.get k acc)
    + foldr Z.add 0 (w <$> filter (λ e, f e = k) l).
Proof.
  revert acc. induction l as [|e l IH]; intros acc; [simpl; lia|].
  cbn [foldl]. rewrite IH, counter_add_get, filter_cons.
  case_decide; rewrite ?fmap_cons; cbn [foldr]; lia.
Qed.

Lemma group_keys (l : list A) (acc : list (string * Z)) (k : string) :
  k ∈ (foldl (λ acc e, Counter.add (f e) (w e) acc) acc l).*1
  ↔ k ∈ acc.*1 ∨ ∃ e, e ∈ l ∧ f e = k.
Proof.
  revert acc. induction l as [|e l IH]; intros acc; simpl.
  - split; [auto|]. intros [?|(e & ?%elem_of_nil & _)]; done.
  - rewrite IH. unfold Counter.add. rewrite dict_set_keys. split.
    + intros [[-> |?]|(e' & He' & <-)]; eauto.
      * right. exists e. split; [by left|done].
      * right. exists e'. split; [by right|done].
    + intros [?|(e' & [-> |He']%elem_of_cons & <-)]; eauto.
Qed.

Lemma group_NoDup (l : list A) (acc : list (string * Z)) :
  NoDup acc.*1 →
  NoDup (foldl (λ acc e, Counter.add (f e) (w e) acc) acc l).*1.
Proof.
  revert acc. induction l as [|e l IH]; intros acc Hnd; simpl; [done|].
  apply IH. unfold Counter.add. by apply dict_set_NoDup.
Qed.

End grouping.

Lemma sum_of_ones {A} (l : list A) :
  foldr Z.add 0 ((λ _, 1) <$> l) = Z.of_nat (length l).
Proof.
  induction l as [|x l IH]; [done|].
  rewrite fmap_cons. cbn [foldr length]. lia.
Qed.

End counter_facts.

Section progress_properties.

Import ProgressCalculator.

Lemma compute_visual_built_fold (d : list Elem.t) (b : list (string * Z)) (t : Z) :
  foldl (λ '(built_by_type, total_count) elem,
           (Counter.add (type_of elem) (count_of elem) built_by_type,
            total_count + count_of elem))
        (b, t) d
  = (foldl (λ built_by_type elem,
              Counter.add (type_of elem) (count_of elem) built_by_type) b d,
     t + foldr Z.add 0 (count_of <$> d)).
Proof.
  revert b t. induction d as [|e d IH]; intros b t.
  - simpl. f_equal. lia.
  - cbn [foldl]. rewrite IH, fmap_cons. cbn [foldr]. f_equal. lia.
Qed.

(** X15.  [compute_visual_built] is consistent: its per-type table is the
    grouping [compute_progress_report] uses, the counts of the table add up
    to [total_count], and the entry of a type is the sum of the counts of
    the elements of that type ([effective_count], or 1 where absent). *)
Theorem visual_built_adds_up (d : list Elem.t) (k : string) :
  let vb := compute_visual_built d in
  VisualBuilt.by_type vb = group_built d
  ∧ VisualBuilt.total_count vb = Progress.total (VisualBuilt.by_type vb)
  ∧ VisualBuilt.total_count vb = foldr Z.add 0 (count_of <$> d)
  ∧ default 0 (Dict.get k (VisualBuilt.by_type vb))
    = Progress.built_of_type k d.
Proof.
  unfold compute_visual_built. rewrite compute_visual_built_fold. simpl.
  unfold group_built, Progress.built_of_type.
  rewrite (group_total type_of count_of), (group_get type_of count_of).
  unfold Progress.total. simpl. repeat split; lia.
Qed.

End progress_properties.

Section category_properties.

Import ProgressCalculator.

Lemma dict_get_fmap_entry {V W} (g : string → V → W) (k : string)
    (d : list (string * V)) :
  Dict.get k ((λ kv, (kv.1, g kv.1 kv.2)) <$> d) = g k <$> Dict.get k d.
Proof.
  induction d as [|[k0 v0] d IH]; simpl; [done|].
  case_decide; subst; simpl; [done|]. apply IH.
Qed.

(** The loop over the expected types, from any table that shares no key
    with them. *)
Lemma categorize_fold (B E : list (string * Z))
    (table : list (string * Category.t)) (acc : Z) :
  NoDup (table.*1 ++ E.*1) →
  foldl (λ '(progress_by_category, total_built_from_categories)
           '(elem_type, expected_count),
           let built_count := default 0 (Dict.get elem_type B) in
           let progress_percent :=
             if 0 <? expected_count
             then (Py.truediv built_count expected_count * 100)%Q else 0%Q in
           (Dict.set elem_type
              {| Category.built := built_count;
                 Category.expected := expected_count;
                 Category.progress_percent := Py.round progress_percent 2 |}
              progress_by_category,
            total_built_from_categories + built_count))
        (table, acc) E
  = ((table
      ++ ((λ kv, (kv.1, Progress.entry_of (default 0 (Dict.get kv.1 B)) kv.2))
            <$> E))%list,
     acc + foldr Z.add 0 ((λ kv, default 0 (Dict.get kv.1 B)) <$> E)).
Proof.
  revert table acc. induction E as [|[k n] E IH]; intros table acc Hnd.
  - simpl. rewrite app_nil_r. f_equal. lia.
  - cbn [foldl]. simpl in Hnd.
    assert (Hk : k ∉ table.*1).
    { apply NoDup_app in Hnd as (_ & Hdis & _). intros Hin.
      apply (Hdis k Hin). left. }
    rewrite dict_set_fresh by done. rewrite IH.
    + rewrite !fmap_cons. cbn [foldr]. rewrite <- app_assoc. simpl.
      f_equal. lia.
    + rewrite fmap_app, <- app_assoc. simpl. done.
Qed.

Lemma categorize_spec (B E : list (string * Z)) :
  NoDup E.*1 →
  categorize B E
  = ((λ kv, (kv.1, Progress.entry_of (default 0 (Dict.get kv.1 B)) kv.2))
       <$> E,
     foldr Z.add 0 ((λ kv, default 0 (Dict.get kv.1 B)) <$> E)).
Proof.
  intros Hnd. unfold categorize.
  exact (categorize_fold B E [] 0 Hnd).
Qed.

Lemma group_expected_NoDup (a : list Elem.t) : NoDup (group_expected a).*1.
Proof. apply (group_NoDup type_of (λ _, 1)), NoDup_nil_2. Qed.

Lemma group_expected_keys (a : list Elem.t) (k : string) :
  k ∈ (group_expected a).*1 ↔ ∃ x, x ∈ a ∧ type_of x = k.
Proof.
  unfold group_expected. rewrite (group_keys type_of (λ _, 1)).
  split; [|auto]. intros [?%elem_of_nil|?]; done.
Qed.

Lemma group_expected_get (a : list Elem.t) (k : string) :
  default 0 (Dict.get k (group_expected a)) = Progress.expected_of_type k a.
Proof.
  unfold group_expected, Progress.expected_of_type.
  rewrite (group_get type_of (λ _, 1)), sum_of_ones. simpl. lia.
Qed.

Lemma group_built_get (d : list Elem.t) (k : string) :
  default 0 (Dict.get k (group_built d)) = Progress.built_of_type k d.
Proof.
  unfold group_built, Progress.built_of_type.
  rewrite (group_get type_of count_of). simpl. lia.
Qed.

(** X16.  The per-category table of a report.  When at least half of what
    was detected maps onto the expected types, the report is in mode
    [category_based] and its table has, for the type of every expected
    element, an entry whose [expected] is the number of expected elements of
    that type (at least 1) and whose [built] is the sum of the counts of the
    detected elements of that type; the table has no entry for any other
    type. *)
Theorem category_table_entries (d a : list Elem.t) :
  (1 # 2 <= Progress.mapping_ratio d a)%Q →
  let r := compute_progress_report d a in
  ProgressReport.progress_mode r = "category_based"
  ∧ ∃ table,
      ProgressReport.progress_by_category r = Some table
      ∧ ∀ k : string,
          match Dict.get k table with
          | Some c =>
              (∃ x, x ∈ a ∧ type_of x = k)
              ∧ Category.built c = Progress.built_of_type k d
              ∧ Category.expected c = Progress.expected_of_type k a
              ∧ 1 ≤ Category.expected c
          | None => ∀ x, x ∈ a → type_of x ≠ k
          end.
Proof.
  intros Hratio r.
  pose proof (compute_progress_report_branch d a) as Hbr. simpl in Hbr.
  destruct (Py.Qlt_bool (Progress.mapping_ratio d a) (1 # 2)) eqn:Hlt.
  { apply Qlt_bool_iff in Hlt. by apply Qlt_not_le in Hlt. }
  destruct Hbr as [Hmode Htable]. split; [exact Hmode|].
  exists (Progress.breakdown d a). split; [exact Htable|]. intros k.
  unfold Progress.breakdown.
  rewrite (categorize_spec _ _ (group_expected_NoDup a)). simpl.
  rewrite (dict_get_fmap_entry
             (λ k n, Progress.entry_of
                       (default 0 (Dict.get k (group_built d))) n)).
  pose proof (group_expected_get a k) as Hget.
  pose proof (group_expected_keys a k) as Hkeys.
  destruct (Dict.get k (group_expected a)) as [n|] eqn:E; simpl.
  - simpl in Hget. subst n.
    assert (Hx : ∃ x, x ∈ a ∧ type_of x = k).
    { apply Hkeys. apply dec_stable. intros Hout.
      apply dict_get_None in Hout. congruence. }
    assert (Hpos : 1 ≤ Progress.expected_of_type k a).
    { destruct Hx as (x & Hin & Hty). unfold Progress.expected_of_type.
      assert (Hf : x ∈ filter (λ e, type_of e = k) a)
        by (apply list_elem_of_filter; done).
      destruct (filter (λ e, type_of e = k) a); [by apply elem_of_nil in Hf|].
      simpl. lia. }
    rewrite group_built_get. done.
  - intros x Hin Hty. apply dict_get_None in E. apply E, Hkeys. eauto.
Qed.

Lemma category_table_entries_witness :
  let wall := Elem.make (Some "Wall") (Some 2) (Some 2) None None in
  let pipe := Elem.make (Some "pipe") (Some 1) (Some 1) None None in
  let d := [wall; pipe] in
  let a := [Elem.make (Some "wall") None None None None;
            Elem.make (Some "WALL") None None None None;
            Elem.make (Some "column") None None None None] in
  let r := compute_progress_report d a in
  (1 # 2 <= Progress.mapping_ratio d a)%Q
  ∧ ProgressReport.progress_mode r = "category_based"
  ∧ ∃ table,
      ProgressReport.progress_by_category r = Some table
      ∧ ∀ k : string,
          match Dict.get k table with
          | Some c =>
              (∃ x, x ∈ a ∧ type_of x = k)
              ∧ Category.built c = Progress.built_of_type k d
              ∧ Category.expected c = Progress.expected_of_type k a
              ∧ 1 ≤ Category.expected c
          | None => ∀ x, x ∈ a → type_of x ≠ k
          end.
Proof.
  intros wall pipe d a r.
  assert (H : (1 # 2 <= Progress.mapping_ratio d a)%Q)
    by (vm_compute; discriminate).
  split; [exact H|].
  apply (category_table_entries d a H).
Defined.

Lemma sum_ext {A} (g h : A → Z) (l : list A) :
  (∀ x, x ∈ l → g x = h x) →
  foldr Z.add 0 (g <$> l) = foldr Z.add 0 (h <$> l).
Proof.
  induction l as [|x l IH]; intros Hext; [done|].
  rewrite !fmap_cons. cbn [foldr]. rewrite (Hext x) by left.
  rewrite IH; [done|]. intros y Hy. apply Hext. by right.
Qed.

(** [total_built_from_categories]: the counts of the detected elements whose
    type is expected. *)
Lemma built_from_categories_spec (d a : list Elem.t) :
  Progress.built_from_categories d a
  = foldr Z.add 0
      ((λ k, Progress.built_of_type k d) <$> (group_expected a).*1).
Proof.
  unfold Progress.built_from_categories.
  rewrite (categorize_spec _ _ (group_expected_NoDup a)). simpl.
  rewrite <- list_fmap_compose. apply sum_ext.
  intros [k n] _. simpl. apply group_built_get.
Qed.

Lemma built_of_type_cons (k : string) (e : Elem.t) (d : list Elem.t) :
  Progress.built_of_type k (e :: d)
  = (if decide (type_of e = k) then count_of e else 0)
    + Progress.built_of_type k d.
Proof.
  unfold Progress.built_of_type. rewrite filter_cons.
  case_decide; [rewrite fmap_cons; cbn [foldr]|]; lia.
Qed.

Lemma sum_by_type_bounds (K : list string) (d : list Elem.t) :
  NoDup K →
  (∀ e, e ∈ d → 0 ≤ count_of e) →
  0 ≤ foldr Z.add 0 ((λ k, Progress.built_of_type k d) <$> K)
    ≤ foldr Z.add 0 (count_of <$> d).
Proof.
  intros HK. induction d as [|e d IH]; intros Hpos.
  - assert (Hz : foldr Z.add 0 ((λ k, Progress.built_of_type k []) <$> K) = 0).
    { clear. induction K as [|k K IHK]; [done|].
      rewrite fmap_cons. cbn [foldr]. by rewrite IHK. }
    rewrite Hz. simpl. lia.
  - rewrite fmap_cons. cbn [foldr].
    assert (H0 : 0 ≤ count_of e) by (apply Hpos; left).
    assert (IH' := IH (λ x Hx, Hpos x (list_elem_of_further _ _ _ Hx))).
    clear IH Hpos.
    assert (Hstep :
      ∃ extra, 0 ≤ extra ≤ count_of e
        ∧ foldr Z.add 0 ((λ k, Progress.built_of_type k (e :: d)) <$> K)
          = extra + foldr Z.add 0 ((λ k, Progress.built_of_type k d) <$> K)).
    { clear IH'. induction K as [|k K IHK].
      - exists 0. simpl. lia.
      - apply NoDup_cons in HK as [Hk HK].
        rewrite !fmap_cons. cbn [foldr]. rewrite built_of_type_cons.
        case_decide as Ht.
        + exists (count_of e). split; [lia|].
          rewrite (sum_ext (λ k0, Progress.built_of_type k0 (e :: d))
                           (λ k0, Progress.built_of_type k0 d)); [lia|].
          intros k0 Hk0. rewrite built_of_type_cons.
          rewrite decide_False; [lia|]. intros Heq. apply Hk.
          by replace k with k0 by congruence.
        + destruct (IHK HK) as (extra & Hb & ->). exists extra. lia. }
    destruct Hstep as (extra & Hb & ->). lia.
Qed.

Lemma mapping_ratio_of_bounds (mapped built : Z) :
  0 ≤ mapped ≤ built →
  (0 <= mapping_ratio_of mapped built <= 1)%Q.
Proof.
  intros [H0 H1]. unfold mapping_ratio_of.
  destruct (Z.ltb_spec 0 built) as [Hpos|Hnon]; [|done].
  assert (Hq : (0 < inject_Z built)%Q) by (by rewrite <- (Zlt_Qlt 0)).
  unfold Py.truediv. split.
  - apply Qle_shift_div_l; [done|]. rewrite Qmult_0_l.
    by rewrite <- (Zle_Qle 0).
  - apply Qle_shift_div_r; [done|]. rewrite Qmult_1_l.
    by rewrite <- Zle_Qle.
Qed.

(** X17.  When no detected element has a negative count, [mapping_ratio]
    is a proportion: the counts attributed to expected categories never
    exceed the total built, and the ratio lies between 0 and 1. *)
Theorem mapping_ratio_is_a_proportion (d a : list Elem.t) :
  (∀ e, e ∈ d → 0 ≤ count_of e) →
  0 ≤ Progress.built_from_categories d a
    ≤ VisualBuilt.total_count (compute_visual_built d)
  ∧ (0 <= Progress.mapping_ratio d a <= 1)%Q.
Proof.
  intros Hpos.
  assert (Hb : 0 ≤ Progress.built_from_categories d a
                 ≤ VisualBuilt.total_count (compute_visual_built d)).
  { rewrite built_from_categories_spec.
    unfold compute_visual_built. rewrite compute_visual_built_fold. simpl.
    apply sum_by_type_bounds; [apply group_expected_NoDup|done]. }
  split; [done|]. by apply mapping_ratio_of_bounds.
Qed.

Lemma mapping_ratio_is_a_proportion_witness :
  let wall := Elem.make (Some "wall") None (Some 3) None None in
  let crane := Elem.make (Some "crane") None None None None in
  (0 <= Progress.mapping_ratio [wall; crane; wall] [wall] <= 1)%Q.
Proof.
  intros wall crane.
  apply (mapping_ratio_is_a_proportion [wall; crane; wall] [wall]).
  intros e He. repeat (apply elem_of_cons in He as [-> |He]); try done.
  by apply elem_of_nil in He.
Defined.

End category_properties.

Section weak_matching_properties.

Import ProgressCalculator.

Lemma built_of_type_absent (k : string) (d : list Elem.t) :
  (∀ e, e ∈ d → type_of e ≠ k) → Progress.built_of_type k d = 0.
Proof.
  induction d as [|e d IH]; intros Habs; [done|].
  rewrite built_of_type_cons, decide_False by (apply Habs; left).
  rewrite IH; [done|]. intros e' He'. apply Habs. by right.
Qed.

Lemma sum_of_zeros {A} (l : list A) : foldr Z.add 0 ((λ _, 0) <$> l) = 0.
Proof.
  induction l as [|x l IH]; [done|]. rewrite fmap_cons. cbn [foldr]. lia.
Qed.

Lemma weak_when_nothing_mapped (built : Z) :
  Py.Qlt_bool (mapping_ratio_of 0 built) (1 # 2) = true.
Proof.
  apply Qlt_bool_iff. unfold mapping_ratio_of, Py.truediv.
  destruct (0 <? built); [|done].
  unfold Qdiv. by rewrite Qmult_0_l.
Qed.

(** X18.  Matching is by exact lower-cased type: when no detected element
    has the type of an expected element (in particular when nothing is
    detected, or nothing is expected), [compute_progress_report] falls back
    to [weak_matching]; the table is the single synthetic entry
    ["elementos_detectados"] with the total built against the number of
    expected elements, and with nothing expected the division is skipped
    and [overall_progress] is 0. *)
Theorem unmatched_types_give_weak_matching (d a : list Elem.t) :
  (∀ e x, e ∈ d → x ∈ a → type_of e ≠ type_of x) →
  let r := compute_progress_report d a in
  ProgressReport.progress_mode r = "weak_matching"
  ∧ ProgressReport.total_built r = Some (foldr Z.add 0 (count_of <$> d))
  ∧ (∃ c, ProgressReport.progress_by_category r
          = Some [("elementos_detectados", c)]
          ∧ Category.built c = foldr Z.add 0 (count_of <$> d)
          ∧ Category.expected c = Z.of_nat (length a))
  ∧ (a = [] → ProgressReport.overall_progress r == 0).
Proof.
  intros Hdis.
  assert (Hzero : Progress.built_from_categories d a = 0).
  { rewrite built_from_categories_spec.
    rewrite (sum_ext _ (λ _, 0)); [apply sum_of_zeros|].
    intros k (x & Hx & <-)%group_expected_keys.
    apply built_of_type_absent. intros e He. by apply Hdis. }
  unfold Progress.built_from_categories in Hzero.
  unfold compute_progress_report.
  destruct (categorize (group_built d) (group_expected a)) as [table mapped].
  simpl in Hzero. subst mapped.
  rewrite weak_when_nothing_mapped.
  unfold compute_visual_built. rewrite compute_visual_built_fold. simpl.
  split; [done|]. split; [f_equal; lia|]. split.
  - eexists. split; [reflexivity|]. simpl. split; [lia|done].
  - intros ->. simpl. reflexivity.
Qed.

Lemma unmatched_types_give_weak_matching_witness :
  let crane := Elem.make (Some "crane") None (Some 2) None None in
  let wall := Elem.make (Some "wall") None None None None in
  ProgressReport.progress_mode (compute_progress_report [crane] [wall; wall])
  = "weak_matching".
Proof.
  intros crane wall.
  apply (unmatched_types_give_weak_matching [crane] [wall; wall]).
  intros e x He Hx.
  apply list_elem_of_singleton in He as ->.
  repeat (apply elem_of_cons in Hx as [-> |Hx]); try done.
  by apply elem_of_nil in Hx.
Defined.

End weak_matching_properties.

(** * Rounding *)

Section rounding_facts.

Local Open Scope Q_scope.

Lemma round_half_even_comp (q q' : Q) :
  q == q' → Py.round_half_even q = Py.round_half_even q'.
Proof.
  intros Heq. unfold Py.round_half_even.
  rewrite (Qfloor_comp q q' Heq).
  assert (Hc : (q - inject_Z (Qfloor q') ?= 1 # 2)
               = (q' - inject_Z (Qfloor q') ?= 1 # 2))
    by (by rewrite Heq).
  by rewrite Hc.
Qed.

Lemma round_half_even_bounds (A B : Z) (q : Q) :
  inject_Z A <= q <= inject_Z B →
  (A ≤ Py.round_half_even q ≤ B)%Z.
Proof.
  intros [HA HB]. unfold Py.round_half_even.
  assert (HfA : (A ≤ Qfloor q)%Z).
  { rewrite <- (Qfloor_Z A). by apply Qfloor_resp_le. }
  assert (HfB : (Qfloor q ≤ B)%Z).
  { rewrite <- (Qfloor_Z B). by apply Qfloor_resp_le. }
  assert (Hlow : inject_Z (Qfloor q) <= q) by apply Qfloor_le.
  assert (Hup : Qfloor q = B →
                (q - inject_Z (Qfloor q) ?= 1 # 2) = Lt).
  { intros Hf. apply (proj1 (Qlt_alt _ _)). rewrite Hf in *. lra. }
  destruct (q - inject_Z (Qfloor q) ?= 1 # 2) eqn:E.
  - destruct (Z.even (Qfloor q)); [lia|].
    destruct (decide (Qfloor q = B)) as [Hf|?]; [|lia].
    specialize (Hup Hf). congruence.
  - lia.
  - destruct (decide (Qfloor q = B)) as [Hf|?]; [|lia].
    specialize (Hup Hf). congruence.
Qed.

Lemma scale_positive (n : nat) : 0 < inject_Z (10 ^ Z.of_nat n).
Proof.
  rewrite <- (Zlt_Qlt 0). apply Z.pow_pos_nonneg; lia.
Qed.

Lemma py_round_comp (q q' : Q) (n : nat) :
  q == q' → Py.round q n == Py.round q' n.
Proof.
  intros Heq. unfold Py.round.
  rewrite (round_half_even_comp (q * inject_Z (10 ^ Z.of_nat n))
                                (q' * inject_Z (10 ^ Z.of_nat n)));
    [reflexivity|]. by rewrite Heq.
Qed.

Lemma py_round_bounds (A B : Z) (q : Q) (n : nat) :
  inject_Z A <= q <= inject_Z B →
  inject_Z A <= Py.round q n <= inject_Z B.
Proof.
  intros [HA HB]. unfold Py.round.
  pose proof (scale_positive n) as Hs.
  set (s := (10 ^ Z.of_nat n)%Z) in *.
  destruct (round_half_even_bounds (A * s) (B * s) (q * inject_Z s))
    as [Hlo Hhi].
  { rewrite !inject_Z_mult. split; apply Qmult_le_compat_r; lra. }
  split.
  - apply Qle_shift_div_l; [done|].
    rewrite <- inject_Z_mult. by rewrite <- Zle_Qle.
  - apply Qle_shift_div_r; [done|].
    rewrite <- inject_Z_mult. by rewrite <- Zle_Qle.
Qed.

Lemma py_round_zero (q : Q) (n : nat) : q == 0 → Py.round q n == 0.
Proof.
  intros Heq.
  destruct (py_round_bounds 0 0 q n) as [H1 H2];
    [change (inject_Z 0) with 0%Q; rewrite Heq; lra|].
  change (inject_Z 0) with 0%Q in *. lra.
Qed.

End rounding_facts.

(** * Properties of the further methods of [ProgressCalculator] *)

Section overall_progress_properties.

Import ProgressAnalysis.

Local Open Scope Q_scope.

Lemma length_filter_disjoint {A} (P Q : A → Prop)
    `{!∀ x, Decision (P x), !∀ x, Decision (Q x)} (l : list A) :
  (∀ x, P x → Q x → False) →
  (length (filter P l) + length (filter Q l) ≤ length l)%nat.
Proof.
  intros Hdis. induction l as [|x l IH]; [done|].
  rewrite !filter_cons.
  destruct (decide (P x)) as [HP|HP]; destruct (decide (Q x)) as [HQ|HQ];
    simpl; try lia.
  exfalso. by eapply Hdis.
Qed.

(** X19.  [calculate_overall_progress] is a percentage: the result lies
    between 0 and 100 for every list of elements (0.0 for the empty list),
    whatever their statuses. *)
Theorem overall_progress_is_a_percentage (d : list Elem.t) :
  0 <= calculate_overall_progress d <= 100.
Proof.
  destruct d as [|e d]; [done|].
  unfold calculate_overall_progress.
  set (l := e :: d).
  apply (py_round_bounds 0 100).
  assert (Hsum : (count_status "completed" l + count_status "in_progress" l
                  ≤ Z.of_nat (length l))%Z).
  { unfold count_status.
    pose proof (length_filter_disjoint
                  (λ e, Elem.status e = Some "completed")
                  (λ e, Elem.status e = Some "in_progress") l) as H.
    rewrite <- Nat2Z.inj_add. apply Nat2Z.inj_le, H.
    intros x H1 H2. congruence. }
  assert (Hc : (0 ≤ count_status "completed" l)%Z)
    by (unfold count_status; lia).
  assert (Hi : (0 ≤ count_status "in_progress" l)%Z)
    by (unfold count_status; lia).
  assert (Ht : (0 < Z.of_nat (length l))%Z) by (subst l; simpl; lia).
  rewrite Zle_Qle in Hsum, Hc, Hi. rewrite Zlt_Qlt in Ht.
  rewrite inject_Z_plus in Hsum.
  change (inject_Z 0) with 0%Q in *. change (inject_Z 100) with 100%Q.
  set (c := inject_Z (count_status "completed" l)) in *.
  set (i := inject_Z (count_status "in_progress" l)) in *.
  set (t := inject_Z (Z.of_nat (length l))) in *.
  assert (Hy : 0 <= (c * 1 + i * 0.5) / t <= 1).
  { split.
    - apply Qle_shift_div_l; [done|]. lra.
    - apply Qle_shift_div_r; [done|]. lra. }
  split; lra.
Qed.

End overall_progress_properties.

Section alert_properties.

Import ProgressAnalysis.

Lemma missing_alerts_returns
    (all : list Payload.t) (ids : list (option string)) (alerts : list string) :
  (∀ x, x ∈ all → is_Some (Payload.element_id x)
                  ∧ is_Some (Elem.element_type (Payload.elem x))) →
  ∃ msgs, missing_alerts all ids alerts = Return (alerts ++ msgs)%list
          ∧ length msgs
            = length (filter (λ x, Payload.element_id x ∉ ids) all).
Proof.
  revert alerts. induction all as [|x all IH]; intros alerts Hall.
  - exists []. by rewrite app_nil_r.
  - destruct (Hall x) as [[id Hid] [ty Hty]]; [left|].
    assert (Hrest : ∀ y, y ∈ all →
              is_Some (Payload.element_id y)
              ∧ is_Some (Elem.element_type (Payload.elem y)))
      by (intros y Hy; apply Hall; by right).
    cbn [missing_alerts]. rewrite Hid, filter_cons, Hid.
    case_bool_decide as Hin.
    + rewrite decide_False by tauto. by apply IH.
    + rewrite decide_True by done. rewrite Hty. cbv zeta.
      match goal with
      | |- context [missing_alerts all ids ?al] =>
          destruct (IH al Hrest) as (msgs & -> & Hlen)
      end.
      eexists (_ :: msgs). rewrite <- app_assoc. split; [done|].
      simpl. by rewrite Hlen.
Qed.

Lemma missing_alerts_raises
    (all : list Payload.t) (ids : list (option string)) (alerts : list string) :
  (∃ x, x ∈ all ∧ Payload.element_id x = None) →
  ∃ key, missing_alerts all ids alerts = Raise (KeyError key).
Proof.
  revert alerts. induction all as [|y all IH]; intros alerts (x & Hin & Hx).
  - by apply elem_of_nil in Hin.
  - cbn [missing_alerts].
    destruct (Payload.element_id y) as [id|] eqn:Hid; [|by eexists].
    assert (Hrest : ∃ x, x ∈ all ∧ Payload.element_id x = None).
    { apply elem_of_cons in Hin as [-> |Hin]; [congruence|eauto]. }
    case_bool_decide; [by apply IH|].
    destruct (Elem.element_type (Payload.elem y)); [by apply IH|by eexists].
Qed.

Lemma deviation_alerts_returns (d : list Payload.t) (alerts : list string) :
  (∀ e, e ∈ d → is_Some (deviation_of e) →
                is_Some (Elem.element_type (Payload.elem e))) →
  ∃ msgs, deviation_alerts d alerts = Return (alerts ++ msgs)%list
          ∧ length msgs = length (filter (λ e, is_Some (deviation_of e)) d).
Proof.
  revert alerts. induction d as [|e d IH]; intros alerts Hall.
  - exists []. by rewrite app_nil_r.
  - assert (Hrest : ∀ y, y ∈ d → is_Some (deviation_of y) →
              is_Some (Elem.element_type (Payload.elem y)))
      by (intros y Hy; apply Hall; by right).
    cbn [deviation_alerts]. rewrite filter_cons.
    destruct (deviation_of e) as [dev|] eqn:Hdev.
    + rewrite decide_True by eauto.
      destruct (Hall e) as [ty Hty]; [left|eauto|]. rewrite Hty. cbv zeta.
      match goal with
      | |- context [deviation_alerts d ?al] =>
          destruct (IH al Hrest) as (msgs & -> & Hlen)
      end.
      eexists (_ :: msgs). rewrite <- app_assoc. split; [done|].
      simpl. by rewrite Hlen.
    + rewrite decide_False by (by intros [? ?]). by apply IH.
Qed.

(** X20.  When every expected element has [element_id] and [element_type]
    and every detection with a deviation has [element_type],
    [identify_alerts] returns, with one alert per expected element whose id
    is not among the detected ids plus one per detection that carries a
    non-empty deviation. *)
Theorem identify_alerts_counts
    (d : list Payload.t) (project_data : ProjectData.t) :
  let all := default [] (ProjectData.elements project_data) in
  (∀ x, x ∈ all → is_Some (Payload.element_id x)
                  ∧ is_Some (Elem.element_type (Payload.elem x))) →
  (∀ e, e ∈ d → is_Some (deviation_of e) →
                is_Some (Elem.element_type (Payload.elem e))) →
  ∃ alerts,
    identify_alerts d project_data = Return alerts
    ∧ length alerts
      = (length (filter (λ x, Payload.element_id x
                              ∉ (Payload.element_id <$> d)) all)
         + length (filter (λ e, is_Some (deviation_of e)) d))%nat.
Proof.
  intros all Hall Hdev. unfold identify_alerts. fold all.
  destruct (missing_alerts_returns all (Payload.element_id <$> d) [] Hall)
    as (m1 & -> & Hl1).
  destruct (deviation_alerts_returns d ([] ++ m1)%list Hdev)
    as (m2 & -> & Hl2).
  eexists. split; [done|]. simpl. rewrite length_app. lia.
Qed.

Lemma identify_alerts_counts_witness :
  let a := Payload.make (Elem.make (Some "wall") None None None None)
             (Some "A") (Some "W1") None in
  let b := Payload.make (Elem.make (Some "beam") None None None None)
             (Some "B") None None in
  let seen := Payload.make (Elem.make (Some "wall") None None None None)
                (Some "A") None (Some "tilted") in
  ∃ alerts,
    identify_alerts [seen] (ProjectData.make (Some [a; b])) = Return alerts
    ∧ length alerts = 2%nat.
Proof.
  intros a b seen.
  destruct (identify_alerts_counts [seen] (ProjectData.make (Some [a; b])))
    as (alerts & Hret & Hlen).
  - intros x Hx. simpl in Hx.
    repeat (apply elem_of_cons in Hx as [-> |Hx]); simpl; eauto.
    by apply elem_of_nil in Hx.
  - intros e He _. apply list_elem_of_singleton in He as ->. simpl. eauto.
  - exists alerts. split; [exact Hret|]. rewrite Hlen. reflexivity.
Defined.

(** X21.  [identify_alerts] reads [element["element_id"]] of every expected
    element: if one of them has no [element_id], the call never returns a
    list of alerts, it ends in [KeyError]. *)
Theorem identify_alerts_needs_element_id
    (d : list Payload.t) (project_data : ProjectData.t) (x : Payload.t) :
  x ∈ default [] (ProjectData.elements project_data) →
  Payload.element_id x = None →
  ∃ key, identify_alerts d project_data = Raise (KeyError key).
Proof.
  intros Hin Hx. unfold identify_alerts.
  destruct (missing_alerts_raises
              (default [] (ProjectData.elements project_data))
              (Payload.element_id <$> d) []) as [key ->]; eauto.
Qed.

Lemma identify_alerts_needs_element_id_witness :
  let x := Payload.make (Elem.make (Some "wall") None None None None)
             None (Some "W1") None in
  ∃ key, identify_alerts [] (ProjectData.make (Some [x]))
         = Raise (KeyError key).
Proof.
  intros x.
  apply (identify_alerts_needs_element_id [] (ProjectData.make (Some [x])) x).
  - left.
  - reflexivity.
Defined.

End alert_properties.

Section history_properties.

Import ProgressAnalysis.

Local Open Scope Q_scope.

Lemma category_changes_same (categories : list (string * Category.t)) :
  category_changes_of categories categories = ∅.
Proof.
  unfold category_changes_of.
  apply (set_fold_ind_L (λ r (_ : gset string), r = ∅)); [done|].
  intros category X r _ ->.
  assert (Hz : Qeq_bool (percent_of category categories
                         - percent_of category categories) 0 = true).
  { apply Qeq_bool_iff. unfold Qminus. apply Qplus_opp_r. }
  by rewrite Hz.
Qed.

(** X22.  Comparing two analyses with the same detections reports no
    change: [progress_delta] is 0, no element is new or removed, both
    progress values agree and [category_changes] is empty. *)
Theorem compare_same_detections
    (current previous : Analysis.t) (all : list Elem.t) :
  Analysis.detected_elements current = Analysis.detected_elements previous →
  let c := compare_progress current previous all in
  Comparison.progress_delta c == 0
  ∧ Comparison.current_progress c = Comparison.previous_progress c
  ∧ Comparison.new_elements_count c = 0%Z
  ∧ Comparison.removed_elements_count c = 0%Z
  ∧ Comparison.category_changes c = ∅.
Proof.
  intros Hsame. unfold compare_progress. rewrite Hsame. simpl.
  rewrite difference_diag_L, size_empty, category_changes_same.
  split; [|done].
  apply py_round_zero. unfold Qminus. apply Qplus_opp_r.
Qed.

Lemma compare_same_detections_witness :
  let wall := Payload.make (Elem.make (Some "wall") None None None None)
                (Some "A") None None in
  let monday := Analysis.make (Some [wall]) (Some "2024-05-06") (Some "a1") in
  let friday := Analysis.make (Some [wall]) (Some "2024-05-10") (Some "a2") in
  Comparison.progress_delta
    (compare_progress friday monday [Payload.elem wall]) == 0.
Proof.
  intros wall monday friday.
  apply (compare_same_detections friday monday [Payload.elem wall]).
  reflexivity.
Defined.

Lemma timeline_entry_progress (all : list Elem.t) (a : Analysis.t) :
  TimelineEntry.overall_progress (timeline_entry all a)
  = ProgressReport.overall_progress
      (ProgressCalculator.calculate_progress_metrics
         (Payload.elem <$> default [] (Analysis.detected_elements a))
         all None).
Proof. done. Qed.

(** X23.  [calculate_progress_evolution]: the timeline has one entry per
    analysis; [current_progress] is the overall progress of the last
    analysis computed on its own detections (0.0 without analyses);
    [progress_rate] is 0 with fewer than two analyses, and 0 whenever the
    first and the last analysis have the same detections. *)
Theorem evolution_summary (analyses : list Analysis.t) (all : list Elem.t) :
  let ev := calculate_progress_evolution analyses all in
  Evolution.total_analyses ev = Z.of_nat (length analyses)
  ∧ length (Evolution.timeline ev) = length analyses
  ∧ (analyses = [] → Evolution.current_progress ev = 0)
  ∧ (∀ l a, analyses = (l ++ [a])%list →
       Evolution.current_progress ev
       = ProgressReport.overall_progress
           (ProgressCalculator.calculate_progress_metrics
              (Payload.elem <$> default [] (Analysis.detected_elements a))
              all None))
  ∧ ((length analyses < 2)%nat → Evolution.progress_rate ev == 0)
  ∧ (∀ a1 mid an, analyses = (a1 :: mid ++ [an])%list →
       Analysis.detected_elements a1 = Analysis.detected_elements an →
       Evolution.progress_rate ev == 0).
Proof.
  unfold calculate_progress_evolution.
  cbn [Evolution.timeline Evolution.total_analyses Evolution.progress_rate
       Evolution.current_progress].
  rewrite length_fmap. repeat split.
  - by intros ->.
  - intros l a ->. rewrite fmap_app. simpl. by rewrite last_snoc.
  - intros Hlen. apply py_round_zero.
    destruct analyses as [|a1 [|a2 rest]]; simpl in *; [done|done|lia].
  - intros a1 mid an -> Hsame. apply py_round_zero.
    assert (Hl : ∀ (x y : TimelineEntry.t) tl,
              last (x :: tl ++ [y]) = Some y)
      by (intros; by rewrite app_comm_cons, last_snoc).
    rewrite fmap_cons, fmap_app, fmap_cons, fmap_nil.
    destruct (timeline_entry all <$> mid) as [|y l0]; cbn [app].
    + cbn [last]. rewrite !timeline_entry_progress, Hsame.
      unfold Qminus. apply Qplus_opp_r.
    + assert (Hl' : last (timeline_entry all a1 :: y :: l0
                          ++ [timeline_entry all an])
                    = Some (timeline_entry all an))
        by apply (Hl _ _ (y :: l0)).
      rewrite Hl'.
      rewrite !timeline_entry_progress, Hsame.
      unfold Qminus. apply Qplus_opp_r.
Qed.

End history_properties.

(** * Further properties of [GeometricValidator] *)

Section validator_properties.

Import GeometricValidator.

Local Open Scope Q_scope.

(** A returned result means the sequence rule found nothing. *)
Lemma returned_without_sequence_issue
    (elements : list DetectedElement.t) strict (r : ValidationResult.t) :
  validate_elements elements strict = Return r →
  _validate_construction_sequence elements = [].
Proof.
  intros Hret.
  destruct (_validate_construction_sequence elements) as [|i rest] eqn:E;
    [done|].
  destruct elements as [|e els]; [discriminate E|].
  unfold validate_elements, _identify_suspicious in Hret.
  rewrite suspicious_types_raises in Hret; [done|].
  exists i. unfold collect_issues. rewrite E.
  destruct (sequence_issue_shape (e :: els) i) as [Hf Hn];
    [rewrite E; left|].
  split; [|done]. rewrite !elem_of_app. right. right. left.
Qed.

(** The shape of a returned result. *)
Lemma returned_result_shape
    (elements : list DetectedElement.t) strict (r : ValidationResult.t) :
  validate_elements elements strict = Return r →
  elements ≠ [] →
  let types : gset string :=
    list_to_set ((λ elem, Str.lower (DetectedElement.element_type elem))
                   <$> elements) in
  let issues :=
    (_validate_structural_support types
     ++ _validate_foundation types strict)%list in
  ∃ flagged_types,
    suspicious_types issues ∅ = Return flagged_types
    ∧ ValidationResult.issues r = issues
    ∧ ValidationResult.is_plausible r
      = bool_decide (count_severity "HIGH" issues = 0%Z)
    ∧ ValidationResult.confidence_penalty r
      = Qmin (inject_Z (count_severity "HIGH" issues) * 0.15
              + inject_Z (count_severity "MEDIUM" issues) * 0.05) 0.5
    ∧ ValidationResult.suspicious_elements r
      = filter (λ e, Str.lower (DetectedElement.element_type e) ∈ flagged_types
                     ∧ DetectedElement.confidence e ∈ ["MEDIUM"; "LOW"])
               elements
    ∧ ValidationResult.validated_elements r
      = filter (λ e, e ∉ ValidationResult.suspicious_elements r) elements.
Proof.
  intros Hret Hne types issues.
  pose proof (returned_without_sequence_issue _ _ _ Hret) as Hseq.
  destruct elements as [|e els]; [done|].
  unfold validate_elements, _identify_suspicious, collect_issues in Hret.
  rewrite Hseq, app_nil_r in Hret. fold types in Hret. fold issues in Hret.
  destruct (suspicious_types issues ∅) as [ft|]; [|done].
  injection Hret as <-. exists ft. by simpl.
Qed.

(** The two rules that do not raise are exclusive: a missing support needs
    column and wall absent, a missing foundation needs one of them. *)
Lemma support_and_foundation_issues (types : gset string) strict :
  let issues :=
    (_validate_structural_support types
     ++ _validate_foundation types strict)%list in
  (length issues ≤ 1)%nat
  ∧ 0 <= inject_Z (count_severity "HIGH" issues) * 0.15
         + inject_Z (count_severity "MEDIUM" issues) * 0.05 <= 0.15.
Proof.
  unfold _validate_structural_support, _validate_foundation, any_in,
    STRUCTURAL_DEPENDENCIES, REQUIRES_FOUNDATION. simpl.
  destruct (bool_decide ("beam" ∈ types));
    destruct (bool_decide ("slab" ∈ types));
    destruct (bool_decide ("column" ∈ types));
    destruct (bool_decide ("wall" ∈ types));
    destruct (bool_decide ("foundation" ∈ types));
    destruct (bool_decide ("footing" ∈ types));
    destruct (bool_decide ("pile" ∈ types));
    destruct strict; simpl; (split; [lia|split; by vm_compute]).
Qed.

(** X24.  A result that [validate_elements] returns has at most one issue,
    and its [confidence_penalty] is at most 0.15: the support rule and the
    foundation rule cannot both fire, and a sequence issue never reaches
    the caller.  The cap of 0.5 is never what limits a returned penalty. *)
Theorem returned_result_has_one_issue_at_most
    (elements : list DetectedElement.t) strict (r : ValidationResult.t) :
  validate_elements elements strict = Return r →
  (length (ValidationResult.issues r) ≤ 1)%nat
  ∧ 0 <= ValidationResult.confidence_penalty r <= 0.15.
Proof.
  intros Hret. destruct elements as [|e els].
  - injection Hret as <-. simpl. split; [lia|]. split; by vm_compute.
  - destruct (returned_result_shape _ _ _ Hret) as (ft & _ & -> & _ & -> & _);
      [done|].
    match goal with
    | |- context [_validate_structural_support ?T] =>
        destruct (support_and_foundation_issues T strict)
          as (Hlen & Hlow & Hpen)
    end.
    split; [done|]. split.
    + apply Q.min_glb; [exact Hlow|by vm_compute].
    + eapply Qle_trans; [apply Q.le_min_l|exact Hpen].
Qed.

Lemma returned_result_has_one_issue_at_most_witness :
  let column :=
    DetectedElement.make "Column" None "HIGH" "completed" "" None None in
  ∃ r, validate_elements [column] true = Return r
       ∧ (length (ValidationResult.issues r) ≤ 1)%nat
       ∧ 0 <= ValidationResult.confidence_penalty r <= 0.15.
Proof.
  intros column.
  destruct (validate_elements [column] true) as [r|e] eqn:E;
    [|vm_compute in E; discriminate E].
  exists r. split; [reflexivity|].
  apply (returned_result_has_one_issue_at_most [column] true r E).
Defined.

End validator_properties.

Section validator_partition.

Import GeometricValidator.

Lemma filter_complement_length {A} `{!EqDecision A} (P : A → Prop)
    `{!∀ x, Decision (P x)} (l0 l : list A) :
  l ⊆ l0 →
  (length (filter P l) + length (filter (λ x, x ∉ filter P l0) l)
   = length l)%nat.
Proof.
  induction l as [|x l IH]; intros Hsub; [done|].
  assert (Hx : x ∈ l0) by (apply Hsub; left).
  assert (Hl : l ⊆ l0) by (intros y Hy; apply Hsub; by right).
  rewrite !filter_cons. specialize (IH Hl).
  destruct (decide (P x)) as [HP|HP].
  - rewrite decide_False; [simpl; lia|].
    intros Hout. apply Hout, list_elem_of_filter. done.
  - rewrite decide_True; [simpl; lia|].
    intros [? _]%list_elem_of_filter. done.
Qed.

(** X25.  The validated and the suspicious elements split the input: every
    suspicious element is an input element of MEDIUM or LOW confidence (a
    HIGH-confidence detection is never suspicious), the validated elements
    are exactly the input elements that are not suspicious, and the two
    lists together are as long as the input. *)
Theorem validated_and_suspicious_split
    (elements : list DetectedElement.t) strict (r : ValidationResult.t) :
  validate_elements elements strict = Return r →
  (∀ e, e ∈ ValidationResult.suspicious_elements r →
        e ∈ elements ∧ DetectedElement.confidence e ∈ ["MEDIUM"; "LOW"])
  ∧ (∀ e, e ∈ ValidationResult.validated_elements r
          ↔ e ∈ elements ∧ e ∉ ValidationResult.suspicious_elements r)
  ∧ (length (ValidationResult.validated_elements r)
     + length (ValidationResult.suspicious_elements r)
     = length elements)%nat.
Proof.
  intros Hret. destruct elements as [|e0 els].
  - injection Hret as <-. simpl. split; [|split; [|done]].
    + intros e He. by apply elem_of_nil in He.
    + intros e. split; [intros He|intros [He _]]; by apply elem_of_nil in He.
  - destruct (returned_result_shape _ _ _ Hret)
      as (ft & _ & _ & _ & _ & Hs & Hv); [done|].
    rewrite Hv, Hs. split; [|split].
    + intros e He. by apply list_elem_of_filter in He as [[_ Hc] Hin].
    + intros e. rewrite (list_elem_of_filter (λ x, x ∉ filter _ _)). tauto.
    + rewrite Nat.add_comm. by apply filter_complement_length.
Qed.

Lemma validated_and_suspicious_split_witness :
  let beam c := DetectedElement.make "beam" None c "completed" "" None None in
  ∃ r, validate_elements [beam "LOW"; beam "HIGH"] false = Return r
       ∧ ValidationResult.suspicious_elements r = [beam "LOW"]
       ∧ (length (ValidationResult.validated_elements r)
          + length (ValidationResult.suspicious_elements r) = 2)%nat.
Proof.
  intros beam.
  destruct (validate_elements [beam "LOW"; beam "HIGH"] false)
    as [r|e] eqn:E; [|vm_compute in E; discriminate E].
  exists r. split; [reflexivity|]. split.
  - vm_compute in E. by injection E as <-.
  - apply (validated_and_suspicious_split
             [beam "LOW"; beam "HIGH"] false r E).
Defined.

(** X26.  [strict_mode] only changes how a missing foundation is graded:
    when the strict call returns, the lenient call returns the same
    validated and suspicious elements, is plausible whenever the strict
    result is, and its penalty is not higher. *)
Theorem strict_mode_only_grades
    (elements : list DetectedElement.t) (r : ValidationResult.t) :
  validate_elements elements true = Return r →
  ∃ r', validate_elements elements false = Return r'
        ∧ ValidationResult.validated_elements r'
          = ValidationResult.validated_elements r
        ∧ ValidationResult.suspicious_elements r'
          = ValidationResult.suspicious_elements r
        ∧ (ValidationResult.is_plausible r = true →
           ValidationResult.is_plausible r' = true)
        ∧ (ValidationResult.confidence_penalty r'
           <= ValidationResult.confidence_penalty r)%Q.
Proof.
  intros Hret. destruct elements as [|e0 els].
  - injection Hret as <-. eexists. split; [done|]. simpl.
    repeat split; done.
  - pose proof (returned_without_sequence_issue _ _ _ Hret) as Hseq.
    unfold validate_elements, _identify_suspicious, collect_issues in *.
    rewrite Hseq, app_nil_r in *.
    revert Hret.
    unfold _validate_structural_support, _validate_foundation, any_in,
      STRUCTURAL_DEPENDENCIES, REQUIRES_FOUNDATION. simpl.
    match goal with
    | |- context [bool_decide ("beam" ∈ ?T)] => generalize T
    end.
    intros T.
    destruct (bool_decide ("beam" ∈ T));
      destruct (bool_decide ("slab" ∈ T));
      destruct (bool_decide ("column" ∈ T));
      destruct (bool_decide ("wall" ∈ T));
      destruct (bool_decide ("foundation" ∈ T));
      destruct (bool_decide ("footing" ∈ T));
      destruct (bool_decide ("pile" ∈ T));
      simpl; intros [= <-]; (eexists; split; [reflexivity|]); simpl;
      (split; [done|]); (split; [done|]); (split; [done|]); by vm_compute.
Qed.

Lemma strict_mode_only_grades_witness :
  let wall := DetectedElement.make "wall" None "LOW" "completed" "" None None in
  ∃ r r', validate_elements [wall] true = Return r
          ∧ validate_elements [wall] false = Return r'
          ∧ ValidationResult.validated_elements r'
            = ValidationResult.validated_elements r.
Proof.
  intros wall.
  destruct (validate_elements [wall] true) as [r|e] eqn:E;
    [|vm_compute in E; discriminate E].
  destruct (strict_mode_only_grades [wall] r E) as (r' & Hr' & Hv & _).
  exists r, r'. split; [reflexivity|]. split; [exact Hr'|exact Hv].
Defined.

End validator_partition.

Section validator_flagging.

Import GeometricValidator.

Lemma detected_type_spec (elements : list DetectedElement.t) (t : string) :
  t ∈ (list_to_set ((λ elem, Str.lower (DetectedElement.element_type elem))
                      <$> elements) : gset string)
  ↔ ∃ e, e ∈ elements ∧ Str.lower (DetectedElement.element_type e) = t.
Proof.
  rewrite elem_of_list_to_set, list_elem_of_fmap. split.
  - intros (e & -> & He). eauto.
  - intros (e & He & <-). eauto.
Qed.

(** X27.  A beam without support is flagged: when some element is a beam
    and none is a column or a wall, a returned result is not plausible, its
    only issue is [missing_structural_support] for ["beam"], and its
    suspicious elements are exactly the beams of MEDIUM or LOW
    confidence. *)
Theorem unsupported_beam_is_flagged
    (elements : list DetectedElement.t) strict (r : ValidationResult.t)
    (b : DetectedElement.t) :
  b ∈ elements →
  Str.lower (DetectedElement.element_type b) = "beam" →
  (∀ e, e ∈ elements →
        Str.lower (DetectedElement.element_type e) ≠ "column"
        ∧ Str.lower (DetectedElement.element_type e) ≠ "wall") →
  validate_elements elements strict = Return r →
  ValidationResult.is_plausible r = false
  ∧ (∃ i, ValidationResult.issues r = [i]
          ∧ Issue.rule i = "missing_structural_support"
          ∧ Issue.severity i = "HIGH"
          ∧ Issue.element_type i = Some "beam"
          ∧ Issue.likely_hallucination i = true)
  ∧ (∀ e, e ∈ ValidationResult.suspicious_elements r
          ↔ e ∈ elements
            ∧ Str.lower (DetectedElement.element_type e) = "beam"
            ∧ DetectedElement.confidence e ∈ ["MEDIUM"; "LOW"]).
Proof.
  intros Hb Hbeam Hnone Hret.
  assert (Hne : elements ≠ []) by (intros ->; by apply elem_of_nil in Hb).
  destruct (returned_result_shape _ _ _ Hret Hne)
    as (ft & Hft & Hi & Hp & _ & Hs & _).
  revert Hft Hi Hp.
  unfold _validate_structural_support, _validate_foundation, any_in,
    STRUCTURAL_DEPENDENCIES, REQUIRES_FOUNDATION. simpl.
  rewrite (bool_decide_eq_true_2 ("beam" ∈ _))
    by (apply detected_type_spec; eauto).
  rewrite (bool_decide_eq_false_2 ("column" ∈ _))
    by (intros (e & He & Ht)%detected_type_spec; by destruct (Hnone e He)).
  rewrite (bool_decide_eq_false_2 ("wall" ∈ _))
    by (intros (e & He & Ht)%detected_type_spec; by destruct (Hnone e He)).
  simpl. destruct (bool_decide ("slab" ∈ _)); simpl;
    intros [= <-] Hi Hp; rewrite Hp, Hs; (split; [done|]);
    (split; [eexists; split; [exact Hi|done]|]);
    intros e;
    rewrite list_elem_of_filter, elem_of_union, elem_of_singleton, elem_of_empty;
    tauto.
Qed.

Lemma unsupported_beam_is_flagged_witness :
  let beam := DetectedElement.make "Beam" None "LOW" "completed" "" None None in
  let slab := DetectedElement.make "slab" None "HIGH" "completed" "" None None in
  ∃ r, validate_elements [slab; beam] false = Return r
       ∧ ValidationResult.is_plausible r = false.
Proof.
  intros beam slab.
  destruct (validate_elements [slab; beam] false) as [r|e] eqn:E;
    [|vm_compute in E; discriminate E].
  exists r. split; [reflexivity|].
  apply (unsupported_beam_is_flagged [slab; beam] false r beam).
  - right. left.
  - reflexivity.
  - intros e He.
    repeat (apply elem_of_cons in He as [-> |He]); [done|done|].
    by apply elem_of_nil in He.
  - exact E.
Defined.

End validator_flagging.
